(** * Property-listing backend: the HTTP handlers of [index.js]

    [index.js] registers three Express routes over one Firestore
    collection: [GET /api/properties], [POST /api/properties] and
    [DELETE /api/properties/:id].  Each handler is embedded as a program
    over the calls it makes to the collection; an interpreter runs such a
    program against a model of the Record Store.

    - JSON values are the values [express.json()] hands to a handler:
      numbers are IEEE binary64 values, strings are sequences of UTF-16
      code units, objects are finite maps from property names to values.
    - A rejected promise that is [await]ed throws inside the handler's
      [try] block, and so does a failing property call; [catch] turns
      either into the handler's 500 response.
    - [console.log] and [console.error] write to the server's console only
      and are left out. *)

From Stdlib Require Import ZArith Ascii String DecimalString.
From Stdlib.Floats Require Import SpecFloat.
From stdpp Require Import gmap list fin_maps.

Set Warnings "-register-all".

(** ** JSON values *)

(** A JavaScript string: its UTF-16 code units. *)
Abbreviation jsstring := (list N).

(** A string literal of the source (all of them are ASCII). *)
Definition js (s : string) : jsstring := N_of_ascii <$> list_ascii_of_string s.

Inductive value :=
| VNull
| VBool (b : bool)
| VNum (x : spec_float)
| VStr (s : jsstring)
| VArr (l : list value)
| VObj (m : gmap jsstring value).

(** The own enumerable properties of an object. *)
Abbreviation obj := (gmap jsstring value).

(** ToBoolean on a JSON value: [null], [false], [0], [-0], [NaN] and the
    empty string are falsy, everything else (arrays and objects included)
    is truthy. *)
Definition truthy (v : value) : bool :=
  match v with
  | VNull => false
  | VBool b => b
  | VNum (S754_zero _) => false
  | VNum S754_nan => false
  | VNum _ => true
  | VStr s => negb (bool_decide (s = []))
  | VArr _ => true
  | VObj _ => true
  end.

(** Reading a property gives [undefined] ([None]) when it is missing, and
    [undefined] is falsy. *)
Definition truthy_prop (p : option value) : bool := from_option truthy false p.

(** The Number for an integer: the nearest binary64 value. *)
Definition number_of_Z (z : Z) : spec_float :=
  binary_normalize 53 1024 z 0 false.

(** The Number for a natural number (an array length). *)
Definition number_of_nat (n : nat) : spec_float := number_of_Z (Z.of_nat n).

(** ** The request body

    [express.json()] in its default strict mode accepts a JSON text only
    when it is an object or an array, so this is what [req.body] holds
    once the middleware has parsed the request.  When it parsed no JSON
    body (none was sent, or not as JSON), [req.body] is the empty object
    under Express 4 and is left [undefined] under Express 5; the sources
    do not pin the version ([npm install express]). *)
Inductive reqbody :=
| BObj (o : obj)
| BArr (l : list value)
| BUndefined.

(** The property name of array index [i]: its canonical decimal form. *)
Definition index_key (i : nat) : jsstring :=
  js (NilEmpty.string_of_uint (Nat.to_uint i)).

(** The index properties of an array. *)
Definition array_entries (l : list value) : obj :=
  list_to_map (imap (fun i v => (index_key i, v)) l).

(** [{...b}]: the own enumerable properties of the body ([length] of an
    array is not enumerable, and spreading [undefined] copies nothing). *)
Definition own_enumerable (b : reqbody) : obj :=
  match b with
  | BObj o => o
  | BArr l => array_entries l
  | BUndefined => ∅
  end.

(** The own property [k] of the body, if it has one.  None of the names
    the handlers read ([name], [price], [location], [image]) is defined on
    [Object.prototype] or [Array.prototype], so on an object or an array
    the own property is what the read [b.k] yields.  [undefined] has no
    properties; reading one throws, see [member]. *)
Definition prop (b : reqbody) (k : jsstring) : option value :=
  match b with
  | BObj o => o !! k
  | BArr l =>
      if decide (k = js "length") then Some (VNum (number_of_nat (length l)))
      else array_entries l !! k
  | BUndefined => None
  end.

(** [{...target, ...source}]: the properties of [source] are copied onto
    [target] and overwrite those of the same name. *)
Definition spread (target source : obj) : obj := source ∪ target.

(** ** The placeholder image *)

(** The code units matched by the regular expression [\s]: the
    ECMAScript WhiteSpace and LineTerminator code points. *)
Definition is_whitespace (u : N) : bool :=
  ((u =? 9) || (u =? 10) || (u =? 11) || (u =? 12) || (u =? 13) || (u =? 32)
   || (u =? 160) || (u =? 5760) || ((8192 <=? u) && (u <=? 8202))
   || (u =? 8232) || (u =? 8233) || (u =? 8239) || (u =? 8287)
   || (u =? 12288) || (u =? 65279))%N.

(** [s.replace(/\s/g, '+')] on a string [s]. *)
Definition replace_whitespace (s : jsstring) : jsstring :=
  (fun u => if is_whitespace u then 43%N else u) <$> s.

Definition placeholder_prefix : jsstring :=
  js "https://placehold.co/600x400/cccccc/333?text=".

(** The template literal
    [`https://placehold.co/600x400/cccccc/333?text=${text}`]. *)
Definition placeholder_url (text : jsstring) : jsstring :=
  placeholder_prefix ++ text.

(** The placeholder of a string [name]. *)
Definition placeholder (name : jsstring) : jsstring :=
  placeholder_url (replace_whitespace name).

(** ** Exceptions *)

Inductive error :=
| TypeError
| StoreError (detail : jsstring).

(** The value of an expression, or the exception it throws. *)
Inductive outcome (A : Type) :=
| Resolved (a : A)
| Rejected (e : error).
Arguments Resolved {A} a.
Arguments Rejected {A} e.

(** The member access [b.k]: the property of an object or an array, a
    TypeError on [undefined]. *)
Definition member (b : reqbody) (k : jsstring) : outcome (option value) :=
  match b with
  | BUndefined => Rejected TypeError
  | _ => Resolved (prop b k)
  end.

(** [!b.k] *)
Definition not_member (b : reqbody) (k : jsstring) : outcome bool :=
  match member b k with
  | Resolved p => Resolved (negb (truthy_prop p))
  | Rejected e => Rejected e
  end.

(** [left || right] between conditions: the right one is evaluated only
    when the left one is false. *)
Definition cond_or (left right : outcome bool) : outcome bool :=
  match left with
  | Resolved true => Resolved true
  | Resolved false => right
  | Rejected e => Rejected e
  end.

(** [!newPropertyData.name || !newPropertyData.price || !newPropertyData.location] *)
Definition missing_fields_expr (newPropertyData : reqbody) : outcome bool :=
  cond_or (cond_or (not_member newPropertyData (js "name"))
                   (not_member newPropertyData (js "price")))
          (not_member newPropertyData (js "location")).

(** [name.replace(/\s/g, '+')]: only a string has a callable [replace];
    on any other JSON value (and on [undefined]) the call throws a
    TypeError. *)
Definition call_replace (name : option value) : outcome jsstring :=
  match name with
  | Some (VStr s) => Resolved (replace_whitespace s)
  | _ => Rejected TypeError
  end.

(** [`https://placehold.co/600x400/cccccc/333?text=${newPropertyData.name.replace(/\s/g, '+')}`] *)
Definition placeholder_expr (newPropertyData : reqbody) : outcome value :=
  match call_replace (prop newPropertyData (js "name")) with
  | Resolved text => Resolved (VStr (placeholder_url text))
  | Rejected e => Rejected e
  end.

(** [left || right]: the left operand when it is truthy, otherwise the
    right one, which is only evaluated then. *)
Definition js_or (left : option value) (right : outcome value) : outcome value :=
  match left with
  | Some v => if truthy v then Resolved v else right
  | None => right
  end.

(** [newPropertyData.image || `https://...?text=${...}`], evaluated after
    the validation, on a body that has passed it. *)
Definition image_expr (newPropertyData : reqbody) : outcome value :=
  js_or (prop newPropertyData (js "image")) (placeholder_expr newPropertyData).

(** ** Responses *)

(** [res.status(status).json(body)]. *)
Record response := { status : nat; body : value }.

Definition json (code : nat) (v : value) : response :=
  {| status := code; body := v |}.

(** [{ error: msg }] and [{ message: msg }]. *)
Definition error_body (msg : string) : value :=
  VObj {[ js "error" := VStr (js msg) ]}.

Definition message_body (msg : string) : value :=
  VObj {[ js "message" := VStr (js msg) ]}.

(** ** Handler programs

    A handler ends by sending a response or by an uncaught exception; on
    the way it calls the collection [propertiesCollectionRef]:
    [.get()], [.add(docData)], [.doc(id).get()] and [.doc(id).delete()].
    Each call returns a promise, which the store settles. *)

(** What [snapshot.forEach] iterates over: the documents with their ids. *)
Abbreviation snapshot := (list (jsstring * obj)).

Inductive prog :=
| Respond (r : response)
| Throw (e : error)
| GetAll (k : outcome snapshot -> prog)
| Add (docData : obj) (k : outcome jsstring -> prog)
| DocGet (id : jsstring) (k : outcome (option obj) -> prog)
| DocDelete (id : jsstring) (k : outcome unit -> prog).

(** [await promise]: the value of a resolved promise; a rejected one
    throws its error. *)
Definition awaiting {A : Type} (promise : (outcome A -> prog) -> prog)
    (k : A -> prog) : prog :=
  promise (fun o => match o with Resolved a => k a | Rejected e => Throw e end).

(** An expression evaluated inside a handler: its value, or its throw. *)
Definition evaluating {A : Type} (e : outcome A) (k : A -> prog) : prog :=
  match e with Resolved a => k a | Rejected err => Throw err end.

Notation "'const' x ':=' 'await' c ; p" := (awaiting c (fun x => p))
  (at level 10, x name, c at level 100, p at level 200, only parsing).
Notation "'const' x ':=' 'eval' e ; p" := (evaluating e (fun x => p))
  (at level 10, x name, e at level 100, p at level 200, only parsing).

(** [try { p } catch (error) { h error }]. *)
Fixpoint try_catch (p : prog) (h : error -> prog) : prog :=
  match p with
  | Respond r => Respond r
  | Throw e => h e
  | GetAll k => GetAll (fun o => try_catch (k o) h)
  | Add d k => Add d (fun o => try_catch (k o) h)
  | DocGet id k => DocGet id (fun o => try_catch (k o) h)
  | DocDelete id k => DocDelete id (fun o => try_catch (k o) h)
  end.

(** ** The three routes *)

(** [app.get('/api/properties', ...)] *)
Definition list_handler : prog :=
  try_catch
    (const snapshot := await GetAll;
     let properties :=
       (fun doc : jsstring * obj =>
          VObj (spread {[ js "id" := VStr doc.1 ]} doc.2)) <$> snapshot in
     Respond (json 200 (VArr properties)))
    (fun error =>
       Respond (json 500 (error_body "Failed to fetch properties from the database."))).

(** [app.post('/api/properties', ...)] *)
Definition create_handler (req_body : reqbody) : prog :=
  try_catch
    (let newPropertyData := req_body in
     const missing := eval missing_fields_expr newPropertyData;
     if missing
     then Respond (json 400 (error_body "Missing required property fields."))
     else
       const image := eval image_expr newPropertyData;
       let docData :=
         <[ js "image" := image ]> (spread ∅ (own_enumerable newPropertyData)) in
       const docRef_id := await Add docData;
       Respond (json 201 (VObj (spread {[ js "id" := VStr docRef_id ]} docData))))
    (fun error =>
       Respond (json 500 (error_body "Failed to add property to the database."))).

(** [app.delete('/api/properties/:id', ...)].  [propertiesCollectionRef.doc(id)]
    only builds the reference [docRef]; [doc.exists] tells whether
    [docRef.get()] found a document. *)
Definition delete_handler (id : jsstring) : prog :=
  try_catch
    (let docRef := id in
     const doc := await DocGet docRef;
     if negb (bool_decide (is_Some doc))
     then Respond (json 404 (error_body "Property not found."))
     else
       const _done := await DocDelete docRef;
       Respond (json 200 (message_body "Property deleted successfully.")))
    (fun error =>
       Respond (json 500 (error_body "Failed to delete property from the database."))).

(** The requests the three routes serve. *)
Inductive request :=
| GetProperties
| PostProperties (req_body : reqbody)
| DeleteProperty (id : jsstring).

Definition handle (req : request) : prog :=
  match req with
  | GetProperties => list_handler
  | PostProperties req_body => create_handler req_body
  | DeleteProperty id => delete_handler id
  end.

(** ** The Record Store *)

(** The collection: the documents under their store-assigned ids. *)
Abbreviation store := (gmap jsstring obj).

(** Modelled from the spec: the Record Store is Firestore behind the
    [firebase-admin] client, neither of which is part of the sources.
    Following the spec (sections 4.1 and 7), the store settles every call
    on its own terms: it either rejects the call with some error, and the
    call then has no effect, or it carries the call out in full.  For an
    insert it also chooses the identifier of the new document. *)
Inductive reply :=
| Reject (e : error)
| Accept (auto_id : jsstring).

(** The store calls a run makes, each with the error it was rejected with,
    if any. *)
Inductive call :=
| CGetAll
| CAdd (docData : obj)
| CDocGet (id : jsstring)
| CDocDelete (id : jsstring).

Abbreviation event := (call * option error)%type.

(** A run of a handler: what it sent (or the exception that escaped it),
    the store it leaves behind and the store calls it made, in order. *)
Record run := { result : outcome response; final : store; trace : list event }.

Definition logged (ev : event) (r : run) : run :=
  {| result := result r; final := final r; trace := ev :: trace r |}.

(** Modelled from the spec: running a handler against the Record Store.
    [ω n] is the store's reply to the [n]-th call.  Reading all documents
    yields them in the store's iteration order; an insert files the
    document under the identifier the store chose; a lookup reports the
    document or its absence; a removal deletes the document. *)
Fixpoint exec (ω : nat -> reply) (n : nat) (st : store) (p : prog) : run :=
  match p with
  | Respond r => {| result := Resolved r; final := st; trace := [] |}
  | Throw e => {| result := Rejected e; final := st; trace := [] |}
  | GetAll k =>
      match ω n with
      | Reject e => logged (CGetAll, Some e) (exec ω (S n) st (k (Rejected e)))
      | Accept _ =>
          logged (CGetAll, None) (exec ω (S n) st (k (Resolved (map_to_list st))))
      end
  | Add d k =>
      match ω n with
      | Reject e => logged (CAdd d, Some e) (exec ω (S n) st (k (Rejected e)))
      | Accept id =>
          logged (CAdd d, None) (exec ω (S n) (<[ id := d ]> st) (k (Resolved id)))
      end
  | DocGet id k =>
      match ω n with
      | Reject e => logged (CDocGet id, Some e) (exec ω (S n) st (k (Rejected e)))
      | Accept _ =>
          logged (CDocGet id, None) (exec ω (S n) st (k (Resolved (st !! id))))
      end
  | DocDelete id k =>
      match ω n with
      | Reject e => logged (CDocDelete id, Some e) (exec ω (S n) st (k (Rejected e)))
      | Accept _ =>
          logged (CDocDelete id, None) (exec ω (S n) (delete id st) (k (Resolved tt)))
      end
  end.

(** Serving one request. *)
Definition serve (ω : nat -> reply) (n : nat) (st : store) (req : request) : run :=
  exec ω n st (handle req).

(** Serving requests one after the other: each run starts from the store
    the previous one left and from the store's next reply. *)
Fixpoint serve_all (ω : nat -> reply) (n : nat) (st : store)
    (reqs : list request) : list (outcome response) * store :=
  match reqs with
  | [] => ([], st)
  | req :: reqs' =>
      let r := serve ω n st req in
      let rest := serve_all ω (n + length (trace r)) (final r) reqs' in
      (result r :: rest.1, rest.2)
  end.

(** The store rejected some call of the run. *)
Definition store_failed (r : run) : Prop :=
  ∃ c e, (c, Some e) ∈ trace r.

(** The documents a run inserted. *)
Definition inserted (r : run) : list obj :=
  omap (fun ev : event =>
          match ev with (CAdd d, None) => Some d | _ => None end) (trace r).

(** A store that accepts every call and files every new document under
    the same identifier. *)
Definition reliable (id : string) : nat -> reply := fun _ => Accept (js id).

(** A store that rejects its first call and accepts the others. *)
Definition failing_first (id : string) : nat -> reply :=
  fun n => match n with O => Reject (StoreError (js "UNAVAILABLE")) | _ => Accept (js id) end.

(** ** Vocabulary of the specification *)

(** The three fields the create route requires. *)
Definition required_fields : list jsstring :=
  [js "name"; js "price"; js "location"].

(** A field of the body is absent, or present with a falsy value. *)
Definition missing_or_falsy (b : reqbody) (k : jsstring) : Prop :=
  prop b k = None ∨ ∃ v, prop b k = Some v ∧ truthy v = false.

(** All three required fields are present and truthy. *)
Definition validation_passes (b : reqbody) : Prop :=
  truthy_prop (prop b (js "name")) = true
  ∧ truthy_prop (prop b (js "price")) = true
  ∧ truthy_prop (prop b (js "location")) = true.

(** The [image] of the stored document: the caller's value when that is
    truthy; otherwise, for a string [name], the placeholder URL whose text
    is [name] with each whitespace code unit turned into [+]. *)
Inductive image_choice (b : reqbody) : value -> Prop :=
| caller_image (v : value) :
    prop b (js "image") = Some v -> truthy v = true -> image_choice b v
| placeholder_image (name text : jsstring) :
    truthy_prop (prop b (js "image")) = false ->
    prop b (js "name") = Some (VStr name) ->
    length text = length name ->
    (∀ i u, name !! i = Some u ->
            text !! i = Some (if is_whitespace u then 43%N else u)) ->
    image_choice b (VStr (placeholder_prefix ++ text)).

(** A listing object for the document [d] stored under [id]: it has the
    stored fields with their values, and [id] on top of them when the
    document has no field of that name. *)
Definition listed (id : jsstring) (d : obj) (v : value) : Prop :=
  ∃ o, v = VObj o
       ∧ (∀ k x, d !! k = Some x -> o !! k = Some x)
       ∧ (d !! js "id" = None -> o !! js "id" = Some (VStr id))
       ∧ (∀ k, is_Some (o !! k) -> k = js "id" ∨ is_Some (d !! k)).

(** The stored document has an [image] field. *)
Definition has_image (d : obj) : Prop := is_Some (d !! js "image").

Definition all_have_image (st : store) : Prop :=
  ∀ id d, st !! id = Some d -> has_image d.

(** The message of the 500 response of each route. *)
Definition generic_message (req : request) : string :=
  match req with
  | GetProperties => "Failed to fetch properties from the database."
  | PostProperties _ => "Failed to add property to the database."
  | DeleteProperty _ => "Failed to delete property from the database."
  end.

(** *** The validation, as the spec words it *)

(** The claim on the validation, at the body [b]: when it misses one of
    the required fields, or has a falsy one, the answer is the 400 and no
    store call is made. *)
Definition rejects_with_400 (b : reqbody) : Prop :=
  ∀ k, k ∈ required_fields -> missing_or_falsy b k ->
  ∀ ω n st,
    exec ω n st (create_handler b)
    = {| result := Resolved (json 400 (error_body "Missing required property fields."));
         final := st; trace := [] |}.

(** *** The created document, as the spec words it *)

(** "every space replaced by [+]": the space character only. *)
Definition replace_spaces (s : jsstring) : jsstring :=
  (fun u => if (u =? 32)%N then 43%N else u) <$> s.

(** "the input fields, with [image] set to the caller's value if present
    and otherwise to the placeholder URL" for the name [name]. *)
Definition claimed_docData (o : obj) (name : jsstring) : obj :=
  <[ js "image" :=
       match o !! js "image" with
       | Some v => v
       | None => VStr (placeholder_prefix ++ replace_spaces name)
       end ]> o.

(** The claim on the inserted document, at the input [o] with the string
    name [name]. *)
Definition inserts_claimed_docData (o : obj) (name : jsstring) : Prop :=
  validation_passes (BObj o) -> o !! js "name" = Some (VStr name) ->
  ∀ ω n st d,
    d ∈ inserted (exec ω n st (create_handler (BObj o))) ->
    d = claimed_docData o name.

(** The claim on the 201 response, at the input [o]: the returned object
    has the store-assigned, non-empty [id] and every submitted field, and
    a defaulted [image] when none was submitted. *)
Definition returns_store_id_and_fields (o : obj) : Prop :=
  validation_passes (BObj o) ->
  ∀ ω n st d id,
    inserted (exec ω n st (create_handler (BObj o))) = [d] ->
    ω n = Accept id -> id ≠ [] ->
    ∃ r, result (exec ω n st (create_handler (BObj o))) = Resolved (json 201 (VObj r))
         ∧ r !! js "id" = Some (VStr id)
         ∧ (∀ k v, o !! k = Some v -> r !! k = Some v)
         ∧ (o !! js "image" = None -> is_Some (r !! js "image")).

(** ** Sample requests and stores *)

Definition lakeview_fields : obj :=
  <[ js "name" := VStr (js "Lakeview Cottage") ]>
    (<[ js "price" := VNum (number_of_Z 250000) ]>
       (<[ js "location" := VStr (js "Tahoe") ]> ∅)).

Definition lakeview : reqbody := BObj lakeview_fields.

(** [{name: "X"}] *)
Definition only_name : reqbody := BObj {[ js "name" := VStr (js "X") ]}.

(** [{name: "A\tB", price: 1, location: "T"}]: a name with a tab. *)
Definition tabbed_name : jsstring := [65; 9; 66]%N.

Definition tabbed_fields : obj :=
  <[ js "name" := VStr tabbed_name ]>
    (<[ js "price" := VNum (number_of_Z 1) ]>
       (<[ js "location" := VStr (js "T") ]> ∅)).

(** [{name: "A", price: 1, location: "T", image: ""}] *)
Definition empty_image_fields : obj :=
  <[ js "name" := VStr (js "A") ]>
    (<[ js "price" := VNum (number_of_Z 1) ]>
       (<[ js "location" := VStr (js "T") ]>
          (<[ js "image" := VStr [] ]> ∅))).

(** [{id: "", name: "A", price: 1, location: "T"}] *)
Definition empty_id_fields : obj :=
  <[ js "id" := VStr [] ]>
    (<[ js "name" := VStr (js "A") ]>
       (<[ js "price" := VNum (number_of_Z 1) ]>
          (<[ js "location" := VStr (js "T") ]> ∅))).

(** [{name: 5, price: 1, location: "T"}]: a name that is a number. *)
Definition numeric_name_fields : obj :=
  <[ js "name" := VNum (number_of_Z 5) ]>
    (<[ js "price" := VNum (number_of_Z 1) ]>
       (<[ js "location" := VStr (js "T") ]> ∅)).

(** A collection holding the Lakeview document under [d1]. *)
Definition one_listing : store :=
  {[ js "d1" := <[ js "image" := VStr (placeholder (js "Lakeview Cottage")) ]>
                  lakeview_fields ]}.

Global Instance validation_passes_dec (b : reqbody) : Decision (validation_passes b).
Proof. unfold validation_passes. apply _. Defined.

(** ** Vocabulary of the further properties *)

(** The status codes each route sends. *)
Definition allowed_statuses (req : request) : list nat :=
  match req with
  | GetProperties => [200; 500]
  | PostProperties _ => [201; 400; 500]
  | DeleteProperty _ => [200; 404; 500]
  end.

(** The store calls a route may make on the collection [st]: the list
    route reads once; the create route inserts at most once; the delete
    route looks its id up and removes that id, after a lookup the store
    answered and only when the document is there. *)
Definition permitted_trace (req : request) (st : store) (t : list event) : Prop :=
  match req with
  | GetProperties => ∃ e, t = [(CGetAll, e)]
  | PostProperties _ => t = [] ∨ ∃ d e, t = [(CAdd d, e)]
  | DeleteProperty id =>
      (∃ e, t = [(CDocGet id, e)])
      ∨ (is_Some (st !! id) ∧ ∃ e, t = [(CDocGet id, None); (CDocDelete id, e)])
  end.

(** A document as the create route stores it: [name], [price],
    [location] and [image] are all present and truthy. *)
Definition well_formed_document (d : obj) : Prop :=
  truthy_prop (d !! js "name") = true
  ∧ truthy_prop (d !! js "price") = true
  ∧ truthy_prop (d !! js "location") = true
  ∧ truthy_prop (d !! js "image") = true.

Definition all_well_formed (st : store) : Prop :=
  ∀ id d, st !! id = Some d -> well_formed_document d.

(** A store that files the first insert under one identifier and the next
    under another. *)
Definition two_ids (id1 id2 : string) : nat -> reply :=
  fun n => match n with O => Accept (js id1) | _ => Accept (js id2) end.

(** *** The listing after a delete, as the spec words it *)

(** The claim on the listing after a delete, on the collection [st] and
    the id [id]: once the delete is answered 200, no object of a later
    listing shows that id. *)
Definition removed_id_not_listed (st : store) (id : jsstring) : Prop :=
  ∀ ω n ω' n' l,
    result (exec ω n st (delete_handler id))
    = Resolved (json 200 (message_body "Property deleted successfully.")) ->
    result (exec ω' n' (final (exec ω n st (delete_handler id))) list_handler)
    = Resolved (json 200 (VArr l)) ->
    ∀ o, VObj o ∈ l -> o !! js "id" ≠ Some (VStr id).

(** [{id: "d1", name: "Lakeview Cottage", price: 250000, location: "Tahoe"}] *)
Definition lakeview_with_id : reqbody :=
  BObj (<[ js "id" := VStr (js "d1") ]> lakeview_fields).

(** The collection two creates leave behind, the store filing the first
    document under [d1] and the second, which carries [id: "d1"] as a
    field, under [d2]. *)
Definition shadowed_listings : store :=
  (serve_all (two_ids "d1" "d2") 0 ∅
     [PostProperties lakeview; PostProperties lakeview_with_id]).2.

(** ** Proof automation *)

(** Closes a goal in which the store is supposed to have rejected a call
    of a run whose trace shows none. *)
Ltac no_store_failure H :=
  let c := fresh "c" in
  let e := fresh "e" in
  let Hin := fresh "Hin" in
  destruct H as (c & e & Hin); simpl in Hin;
  repeat (apply elem_of_cons in Hin as [Hin|Hin]; [discriminate Hin|]);
  by apply elem_of_nil in Hin.

(** * Properties *)

(** ** Values and request bodies *)

Example placeholder_lakeview :
  placeholder (js "Lakeview Cottage")
  = js "https://placehold.co/600x400/cccccc/333?text=Lakeview+Cottage".
Proof. reflexivity. Qed.

Lemma replace_whitespace_length (s : jsstring) :
  length (replace_whitespace s) = length s.
Proof. unfold replace_whitespace. apply length_fmap. Qed.

Lemma replace_whitespace_lookup (s : jsstring) (i : nat) (u : N) :
  s !! i = Some u ->
  replace_whitespace s !! i = Some (if is_whitespace u then 43%N else u).
Proof.
  intros Hu. unfold replace_whitespace.
  rewrite list_lookup_fmap, Hu. reflexivity.
Qed.

Lemma spread_empty (o : obj) : spread ∅ o = o.
Proof. unfold spread. apply (right_id_L ∅ (∪)). Qed.

Lemma index_key_not_name (i : nat) : index_key i ≠ js "name".
Proof. unfold index_key. destruct (Nat.to_uint i); discriminate. Qed.

(** An array has no [name]: its own properties are its indices and
    [length]. *)
Lemma array_no_name (l : list value) : prop (BArr l) (js "name") = None.
Proof.
  unfold prop. destruct (decide (js "name" = js "length")) as [Heq|_].
  - discriminate Heq.
  - unfold array_entries. apply not_elem_of_list_to_map_1.
    intros Hin. apply list_elem_of_fmap in Hin as [[k v] [Hk Hkv]].
    apply list_elem_of_lookup in Hkv as [j Hj].
    rewrite list_lookup_imap in Hj.
    destruct (l !! j); simpl in Hj; [|discriminate].
    injection Hj as <- _. simpl in Hk. symmetry in Hk.
    exact (index_key_not_name j Hk).
Qed.

(** Only an object can pass the validation of the create route. *)
Lemma validation_passes_object (b : reqbody) :
  validation_passes b -> ∃ o, b = BObj o.
Proof.
  destruct b as [o|l|]; [eauto| |].
  - intros [Hname _]. rewrite array_no_name in Hname. discriminate.
  - intros [Hname _]. discriminate Hname.
Qed.

(** ** The image expression *)

Lemma image_expr_choice (b : reqbody) (img : value) :
  image_expr b = Resolved img -> image_choice b img.
Proof.
  unfold image_expr, js_or, placeholder_expr, call_replace.
  destruct (prop b (js "image")) as [v|] eqn:Himg.
  - destruct (truthy v) eqn:Hv.
    + intros [= <-]. by apply caller_image.
    + destruct (prop b (js "name")) as [[| | |s| |]|] eqn:Hname; try discriminate.
      intros [= <-].
      apply (placeholder_image b s (replace_whitespace s)); rewrite ?Himg; auto.
      * apply replace_whitespace_length.
      * apply replace_whitespace_lookup.
  - destruct (prop b (js "name")) as [[| | |s| |]|] eqn:Hname; try discriminate.
    intros [= <-].
    apply (placeholder_image b s (replace_whitespace s)); rewrite ?Himg; auto.
    + apply replace_whitespace_length.
    + apply replace_whitespace_lookup.
Qed.

Lemma image_expr_truthy (b : reqbody) (img : value) :
  image_expr b = Resolved img -> truthy img = true.
Proof.
  unfold image_expr, js_or, placeholder_expr, call_replace.
  destruct (prop b (js "image")) as [v|].
  - destruct (truthy v) eqn:Hv; [by intros [= <-]|].
    destruct (prop b (js "name")) as [[| | |s| |]|]; try discriminate.
    by intros [= <-].
  - destruct (prop b (js "name")) as [[| | |s| |]|]; try discriminate.
    by intros [= <-].
Qed.

(** The expression has a value as soon as the name is a string or the
    submitted image is truthy. *)
Lemma image_expr_resolves (b : reqbody) :
  (∃ s, prop b (js "name") = Some (VStr s)) ∨ truthy_prop (prop b (js "image")) = true ->
  ∃ img, image_expr b = Resolved img.
Proof.
  unfold image_expr, js_or, placeholder_expr, call_replace, truthy_prop.
  intros [[s ->]|Himg].
  - destruct (prop b (js "image")) as [v|]; [destruct (truthy v)|]; eauto.
  - destruct (prop b (js "image")) as [v|]; simpl in Himg; [|discriminate].
    rewrite Himg. eauto.
Qed.

(** Otherwise the call of [replace] on the name throws. *)
Lemma image_expr_throws (b : reqbody) :
  (∀ s, prop b (js "name") ≠ Some (VStr s)) ->
  truthy_prop (prop b (js "image")) = false ->
  image_expr b = Rejected TypeError.
Proof.
  unfold image_expr, js_or, placeholder_expr, call_replace, truthy_prop.
  intros Hname Himg.
  destruct (prop b (js "image")) as [v|]; simpl in Himg; rewrite ?Himg;
    destruct (prop b (js "name")) as [[| | |s| |]|]; try reflexivity;
    by destruct (Hname s).
Qed.

(** The description [image_choice] gives of the stored image fits one
    value only. *)
Lemma image_choice_unique (b : reqbody) (v w : value) :
  image_choice b v -> image_choice b w -> v = w.
Proof.
  intros [v' Hv Htv|name text Hf Hname Hlen Htext]
         [w' Hw Htw|name' text' Hf' Hname' Hlen' Htext'].
  - congruence.
  - rewrite Hv in Hf'. simpl in Hf'. congruence.
  - rewrite Hw in Hf. simpl in Hf. congruence.
  - assert (name' = name) as -> by congruence.
    do 2 f_equal. apply list_eq. intros i.
    destruct (name !! i) as [u|] eqn:Hu.
    + by rewrite (Htext i u Hu), (Htext' i u Hu).
    + apply lookup_ge_None in Hu.
      rewrite !(proj2 (lookup_ge_None _ _)); [done|lia|lia].
Qed.

(** ** Runs of the create route *)

Lemma missing_fields_parsed (b : reqbody) :
  b ≠ BUndefined ->
  missing_fields_expr b
  = Resolved (negb (truthy_prop (prop b (js "name")))
              || negb (truthy_prop (prop b (js "price")))
              || negb (truthy_prop (prop b (js "location")))).
Proof.
  intros Hb. unfold missing_fields_expr, not_member, member.
  destruct b as [o|l|]; [| |done];
    destruct (truthy_prop (prop _ (js "name"))),
      (truthy_prop (prop _ (js "price"))),
      (truthy_prop (prop _ (js "location"))); reflexivity.
Qed.

Lemma validation_fails_iff (b : reqbody) :
  negb (truthy_prop (prop b (js "name")))
  || negb (truthy_prop (prop b (js "price")))
  || negb (truthy_prop (prop b (js "location"))) = false
  <-> validation_passes b.
Proof.
  unfold validation_passes.
  destruct (truthy_prop (prop b (js "name"))),
    (truthy_prop (prop b (js "price"))),
    (truthy_prop (prop b (js "location"))); simpl; intuition discriminate.
Qed.

Lemma body_parsed_or_not (b : reqbody) : b = BUndefined ∨ b ≠ BUndefined.
Proof. destruct b; [by right|by right|by left]. Qed.

Lemma validation_passes_parsed (b : reqbody) :
  validation_passes b -> b ≠ BUndefined.
Proof. intros [Hname _] ->. discriminate Hname. Qed.

Lemma missing_fields_valid (b : reqbody) :
  validation_passes b -> missing_fields_expr b = Resolved false.
Proof.
  intros Hv. rewrite (missing_fields_parsed b (validation_passes_parsed b Hv)).
  f_equal. by apply validation_fails_iff.
Qed.

Lemma create_handler_rejects (b : reqbody) :
  b ≠ BUndefined -> ¬ validation_passes b ->
  create_handler b
  = Respond (json 400 (error_body "Missing required property fields.")).
Proof.
  intros Hb Hno. unfold create_handler.
  rewrite (missing_fields_parsed b Hb).
  destruct (negb _ || negb _ || negb _) eqn:Hc; [reflexivity|].
  apply validation_fails_iff in Hc. contradiction.
Qed.

(** Without a parsed body the very first read, of [name], throws, and the
    [catch] block answers. *)
Lemma create_handler_undefined :
  create_handler BUndefined
  = Respond (json 500 (error_body "Failed to add property to the database.")).
Proof. reflexivity. Qed.

Lemma create_handler_throws (b : reqbody) (e : error) :
  validation_passes b -> image_expr b = Rejected e ->
  create_handler b
  = Respond (json 500 (error_body "Failed to add property to the database.")).
Proof.
  intros Hv He. unfold create_handler.
  rewrite (missing_fields_valid b Hv). cbn [evaluating]. rewrite He. reflexivity.
Qed.

Lemma exec_create_accepted (ω : nat -> reply) (n : nat) (st : store)
    (b : reqbody) (img : value) (id : jsstring) :
  validation_passes b -> image_expr b = Resolved img -> ω n = Accept id ->
  let docData := <[ js "image" := img ]> (own_enumerable b) in
  exec ω n st (create_handler b)
  = {| result := Resolved (json 201 (VObj (spread {[ js "id" := VStr id ]} docData)));
       final := <[ id := docData ]> st;
       trace := [(CAdd docData, None)] |}.
Proof.
  intros Hv He Hω. unfold create_handler.
  rewrite (missing_fields_valid b Hv). cbn [evaluating]. rewrite He. simpl.
  rewrite Hω, spread_empty. reflexivity.
Qed.

Lemma exec_create_rejected (ω : nat -> reply) (n : nat) (st : store)
    (b : reqbody) (img : value) (e : error) :
  validation_passes b -> image_expr b = Resolved img -> ω n = Reject e ->
  exec ω n st (create_handler b)
  = {| result := Resolved (json 500 (error_body "Failed to add property to the database."));
       final := st;
       trace := [(CAdd (<[ js "image" := img ]> (own_enumerable b)), Some e)] |}.
Proof.
  intros Hv He Hω. unfold create_handler.
  rewrite (missing_fields_valid b Hv). cbn [evaluating]. rewrite He. simpl.
  rewrite Hω, spread_empty. reflexivity.
Qed.

Lemma exec_create_throws (ω : nat -> reply) (n : nat) (st : store)
    (b : reqbody) (e : error) :
  validation_passes b -> image_expr b = Rejected e ->
  exec ω n st (create_handler b)
  = {| result := Resolved (json 500 (error_body "Failed to add property to the database."));
       final := st; trace := [] |}.
Proof. intros Hv He. by rewrite (create_handler_throws b e Hv He). Qed.

(** The four ways a run of the create route can go. *)
Lemma exec_create_cases (ω : nat -> reply) (n : nat) (st : store) (b : reqbody) :
  exec ω n st (create_handler b)
  = {| result := Resolved (json 400 (error_body "Missing required property fields."));
       final := st; trace := [] |}
  ∨ exec ω n st (create_handler b)
    = {| result := Resolved (json 500 (error_body "Failed to add property to the database."));
         final := st; trace := [] |}
  ∨ (∃ img e, image_expr b = Resolved img
       ∧ exec ω n st (create_handler b)
         = {| result := Resolved (json 500 (error_body "Failed to add property to the database."));
              final := st;
              trace := [(CAdd (<[ js "image" := img ]> (own_enumerable b)), Some e)] |})
  ∨ (∃ img id r, image_expr b = Resolved img
       ∧ exec ω n st (create_handler b)
         = {| result := Resolved (json 201 (VObj r));
              final := <[ id := <[ js "image" := img ]> (own_enumerable b) ]> st;
              trace := [(CAdd (<[ js "image" := img ]> (own_enumerable b)), None)] |}).
Proof.
  destruct (decide (validation_passes b)) as [Hv|Hno].
  - destruct (image_expr b) as [img|e] eqn:He.
    + destruct (ω n) as [e|id] eqn:Hω.
      * right; right; left. exists img, e. split; [done|].
        by apply exec_create_rejected.
      * right; right; right. exists img, id. eexists. split; [done|].
        by apply exec_create_accepted.
    + right; left. by apply (exec_create_throws ω n st b e).
  - destruct (body_parsed_or_not b) as [->|Hb].
    + right; left. by rewrite create_handler_undefined.
    + left. by rewrite (create_handler_rejects b Hb Hno).
Qed.

(** ** The create route: validation *)

(** C1, as amended: a creation request in which one of [name], [price],
    [location] is missing or falsy makes no store call at all, so nothing
    is inserted and the store, and with it the number of listings, is as
    before; when the request came with a parsed JSON body, an object or an
    array, it is answered with status 400 and the body
    [{error: "Missing required property fields."}]. *)
Theorem create_missing_field_400 (b : reqbody) (k : jsstring)
    (ω : nat -> reply) (n : nat) (st : store) :
  k ∈ required_fields -> missing_or_falsy b k ->
  trace (exec ω n st (create_handler b)) = []
  ∧ inserted (exec ω n st (create_handler b)) = []
  ∧ final (exec ω n st (create_handler b)) = st
  ∧ size (final (exec ω n st (create_handler b))) = size st
  ∧ (b ≠ BUndefined ->
     create_handler b
     = Respond (json 400 (error_body "Missing required property fields."))
     ∧ exec ω n st (create_handler b)
       = {| result := Resolved (json 400 (error_body "Missing required property fields."));
            final := st; trace := [] |}).
Proof.
  intros Hk Hmiss.
  assert (Hno : ¬ validation_passes b).
  { intros (Hname & Hprice & Hloc).
    assert (Hf : truthy_prop (prop b k) = false).
    { destruct Hmiss as [->|(v & -> & Hv)]; [reflexivity|exact Hv]. }
    unfold required_fields in Hk.
    rewrite !elem_of_cons, elem_of_nil in Hk.
    destruct Hk as [->|[->|[->|[]]]]; congruence. }
  destruct (body_parsed_or_not b) as [->|Hb].
  - rewrite create_handler_undefined. by repeat split.
  - rewrite (create_handler_rejects b Hb Hno). by repeat split.
Qed.

(** The example of the spec: [POST {name: "X"}]. *)
Lemma create_missing_field_400_witness :
  js "price" ∈ required_fields ∧ missing_or_falsy only_name (js "price")
  ∧ exec (reliable "d1") 0 ∅ (create_handler only_name)
  = {| result := Resolved (json 400 (error_body "Missing required property fields."));
       final := ∅; trace := [] |}.
Proof.
  assert (Hk : js "price" ∈ required_fields).
  { unfold required_fields. rewrite !elem_of_cons. right; left; reflexivity. }
  assert (Hm : missing_or_falsy only_name (js "price")) by (left; reflexivity).
  split; [exact Hk|]. split; [exact Hm|].
  apply (create_missing_field_400 only_name (js "price") (reliable "d1") 0 ∅ Hk Hm).
  discriminate.
Defined.

(** C1, as the spec words it, fails under Express 5 for a request without
    a parsed JSON body: [req.body] is [undefined], reading [name] throws
    inside the [try], and the answer is the 500 of the create route. *)
Lemma rejects_with_400_fails : ¬ rejects_with_400 BUndefined.
Proof.
  intros H.
  specialize (H (js "name") (list_elem_of_here _ _) (or_introl eq_refl)
                (reliable "d1") 0 ∅).
  apply (f_equal result) in H. vm_compute in H. discriminate H.
Qed.

(** What such a request is answered with. *)
Example create_without_body :
  exec (reliable "d1") 0 one_listing (create_handler BUndefined)
  = {| result := Resolved (json 500 (error_body "Failed to add property to the database."));
       final := one_listing; trace := [] |}.
Proof. reflexivity. Qed.

(** ** The create route: the stored document *)

(** A run of the create route inserts at most the document built from the
    body and the image expression. *)
Lemma inserted_create_elem (ω : nat -> reply) (n : nat) (st : store)
    (b : reqbody) (d : obj) :
  d ∈ inserted (exec ω n st (create_handler b)) ->
  ∃ img, image_expr b = Resolved img
         ∧ d = <[ js "image" := img ]> (own_enumerable b).
Proof.
  destruct (exec_create_cases ω n st b)
    as [Hrun|[Hrun|[(img & e & He & Hrun)|(img & id & r & He & Hrun)]]];
    rewrite Hrun; unfold inserted; cbn [trace omap list_omap];
    intros Hin; try by apply elem_of_nil in Hin.
  apply list_elem_of_singleton in Hin. eauto.
Qed.

(** C2, as amended: for a creation request that passes validation, a
    document the run inserts is the input fields with [image] set to the
    caller's value when that is truthy and otherwise to the placeholder
    URL whose text is the name with every whitespace code unit replaced by
    [+]; when the name is a string or the image is truthy the handler's
    one store call is the insert of this document, which the store files
    when it accepts the call. *)
Theorem create_inserts_docData (b : reqbody) (ω : nat -> reply) (n : nat)
    (st : store) :
  validation_passes b ->
  b = BObj (own_enumerable b)
  ∧ (∀ d, d ∈ inserted (exec ω n st (create_handler b)) ->
          ∃ img, image_choice b img
                 ∧ d = <[ js "image" := img ]> (own_enumerable b))
  ∧ ((∃ s, prop b (js "name") = Some (VStr s))
     ∨ truthy_prop (prop b (js "image")) = true ->
     ∃ img, image_choice b img
       ∧ let docData := <[ js "image" := img ]> (own_enumerable b) in
         let r := exec ω n st (create_handler b) in
         match ω n with
         | Accept id =>
             trace r = [(CAdd docData, None)] ∧ inserted r = [docData]
             ∧ final r = <[ id := docData ]> st
         | Reject e =>
             trace r = [(CAdd docData, Some e)] ∧ inserted r = []
             ∧ final r = st
         end).
Proof.
  intros Hv. split; [|split].
  - destruct (validation_passes_object b Hv) as [o ->]. reflexivity.
  - intros d Hd.
    destruct (inserted_create_elem ω n st b d Hd) as (img & He & ->).
    exists img. split; [by apply image_expr_choice|reflexivity].
  - intros Hsrc. destruct (image_expr_resolves b Hsrc) as [img He].
    exists img. split; [by apply image_expr_choice|].
    simpl. destruct (ω n) as [e|id] eqn:Hω.
    + rewrite (exec_create_rejected ω n st b img e Hv He Hω). auto.
    + rewrite (exec_create_accepted ω n st b img id Hv He Hω). auto.
Qed.

Lemma lakeview_valid : validation_passes lakeview.
Proof. by vm_compute. Qed.

Lemma create_inserts_docData_witness :
  validation_passes lakeview
  ∧ ∃ img, image_choice lakeview img
      ∧ inserted (exec (reliable "d1") 0 ∅ (create_handler lakeview))
        = [<[ js "image" := img ]> lakeview_fields].
Proof.
  split; [exact lakeview_valid|].
  destruct (create_inserts_docData lakeview (reliable "d1") 0 ∅ lakeview_valid)
    as (_ & _ & H).
  destruct H as (img & Himg & H).
  - left. eexists. reflexivity.
  - exists img. split; [exact Himg|]. exact (proj1 (proj2 H)).
Defined.

(** The example of the spec: the document stored for
    [{name: "Lakeview Cottage", price: 250000, location: "Tahoe"}]. *)
Example create_lakeview_image :
  inserted (exec (reliable "d1") 0 ∅ (create_handler lakeview))
  = [<[ js "image" :=
          VStr (js "https://placehold.co/600x400/cccccc/333?text=Lakeview+Cottage") ]>
       lakeview_fields].
Proof. reflexivity. Qed.

(** The example of the spec: the 201 response to that request. *)
Example create_lakeview_response :
  ∃ r, result (exec (reliable "d1") 0 ∅ (create_handler lakeview))
       = Resolved (json 201 (VObj r))
       ∧ r !! js "id" = Some (VStr (js "d1"))
       ∧ r !! js "name" = Some (VStr (js "Lakeview Cottage"))
       ∧ r !! js "image"
         = Some (VStr (js "https://placehold.co/600x400/cccccc/333?text=Lakeview+Cottage")).
Proof.
  eexists. split; [vm_compute; reflexivity|].
  repeat split; vm_compute; reflexivity.
Qed.

(** Every code unit that [\s] matches is replaced, not the space alone. *)
Example placeholder_tab_and_nbsp :
  placeholder [65; 9; 66; 160; 67; 32; 68]%N
  = js "https://placehold.co/600x400/cccccc/333?text=A+B+C+D".
Proof. reflexivity. Qed.

Lemma tabbed_valid : validation_passes (BObj tabbed_fields).
Proof. by vm_compute. Qed.

Lemma empty_image_valid : validation_passes (BObj empty_image_fields).
Proof. by vm_compute. Qed.

Lemma empty_id_valid : validation_passes (BObj empty_id_fields).
Proof. by vm_compute. Qed.

(** C2, as the spec words it, fails: a tab in the name is replaced by [+]
    although it is not a space, and an [image] that is present but falsy
    (the empty string) is not kept. *)
Lemma inserts_claimed_docData_fails :
  ¬ inserts_claimed_docData tabbed_fields tabbed_name
  ∧ ¬ inserts_claimed_docData empty_image_fields (js "A").
Proof.
  split; intros H.
  - specialize (H tabbed_valid eq_refl (reliable "d1") 0 ∅
                  (<[ js "image" := VStr (placeholder tabbed_name) ]> tabbed_fields)).
    assert (Hd : <[ js "image" := VStr (placeholder tabbed_name) ]> tabbed_fields
                 !! js "image"
                 = claimed_docData tabbed_fields tabbed_name !! js "image").
    { f_equal. apply H. apply list_elem_of_singleton. reflexivity. }
    vm_compute in Hd. discriminate Hd.
  - specialize (H empty_image_valid eq_refl (reliable "d1") 0 ∅
                  (<[ js "image" := VStr (placeholder (js "A")) ]> empty_image_fields)).
    assert (Hd : <[ js "image" := VStr (placeholder (js "A")) ]> empty_image_fields
                 !! js "image"
                 = claimed_docData empty_image_fields (js "A") !! js "image").
    { f_equal. apply H. apply list_elem_of_singleton. reflexivity. }
    vm_compute in Hd. discriminate Hd.
Qed.

(** ** The create route: the 201 response *)

(** A run of the create route that inserted a document went through the
    image expression and an accepted insert. *)
Lemma inserted_create_inv (ω : nat -> reply) (n : nat) (st : store)
    (b : reqbody) (d : obj) :
  validation_passes b ->
  inserted (exec ω n st (create_handler b)) = [d] ->
  ∃ img id, image_expr b = Resolved img ∧ ω n = Accept id
            ∧ d = <[ js "image" := img ]> (own_enumerable b).
Proof.
  intros Hv Hins.
  destruct (image_expr b) as [img|e] eqn:He.
  - destruct (ω n) as [e|id] eqn:Hω.
    + rewrite (exec_create_rejected ω n st b img e Hv He Hω) in Hins. discriminate.
    + rewrite (exec_create_accepted ω n st b img id Hv He Hω) in Hins.
      injection Hins as <-. eauto.
  - rewrite (exec_create_throws ω n st b e Hv He) in Hins. discriminate.
Qed.

Lemma lookup_spread_id (id : jsstring) (d : obj) (k : jsstring) :
  spread {[ js "id" := VStr id ]} d !! k
  = match d !! k with
    | Some x => Some x
    | None => if decide (k = js "id") then Some (VStr id) else None
    end.
Proof.
  unfold spread. rewrite lookup_union.
  destruct (d !! k) as [x|] eqn:Hd.
  - by destruct ({[ js "id" := VStr id ]} !! k).
  - rewrite (left_id None _). destruct (decide (k = js "id")) as [->|Hne].
    + apply lookup_singleton_eq.
    + by apply lookup_singleton_ne.
Qed.

(** C3, as amended: for a valid creation input that has no [id] field of
    its own and whose insertion into the store succeeds, the response has
    status 201 and its object holds the store-assigned [id] (non-empty
    when the store's identifiers are), every submitted field other than
    [image] with its value, and an [image] that is the submitted one when
    that is truthy and the placeholder when it is omitted or falsy. *)
Theorem create_returns_document (b : reqbody) (ω : nat -> reply) (n : nat)
    (st : store) (d : obj) (id : jsstring) :
  validation_passes b ->
  inserted (exec ω n st (create_handler b)) = [d] ->
  ω n = Accept id -> id ≠ [] ->
  prop b (js "id") = None ->
  ∃ r img,
    exec ω n st (create_handler b)
    = {| result := Resolved (json 201 (VObj r));
         final := <[ id := d ]> st; trace := [(CAdd d, None)] |}
    ∧ r !! js "id" = Some (VStr id)
    ∧ (∀ k v, k ≠ js "image" -> own_enumerable b !! k = Some v -> r !! k = Some v)
    ∧ r !! js "image" = Some img ∧ image_choice b img
    ∧ (∀ k, is_Some (r !! k) ->
            k = js "id" ∨ k = js "image" ∨ is_Some (own_enumerable b !! k)).
Proof.
  intros Hv Hins Hω Hne Hid.
  destruct (inserted_create_inv ω n st b d Hv Hins) as (img & id' & He & Hω' & ->).
  assert (id' = id) as -> by congruence.
  destruct (validation_passes_object b Hv) as [o ->]. simpl in *.
  exists (spread {[ js "id" := VStr id ]} (<[ js "image" := img ]> o)), img.
  split; [by apply (exec_create_accepted ω n st (BObj o) img id)|].
  split.
  { rewrite lookup_spread_id, lookup_insert_ne by discriminate.
    rewrite Hid. by rewrite decide_True. }
  split.
  { intros k v Hk Hkv.
    by rewrite lookup_spread_id, lookup_insert_ne, Hkv. }
  split.
  { by rewrite lookup_spread_id, lookup_insert_eq. }
  split; [by apply image_expr_choice|].
  intros k. rewrite lookup_spread_id.
  destruct (decide (k = js "image")) as [->|Hk]; [auto|].
  rewrite lookup_insert_ne by done.
  destruct (o !! k) eqn:Hok; [eauto|].
  destruct (decide (k = js "id")); [auto|]. by intros [? ?].
Qed.

Lemma create_returns_document_witness :
  validation_passes lakeview
  ∧ ∃ r, result (exec (reliable "d1") 0 ∅ (create_handler lakeview))
         = Resolved (json 201 (VObj r))
         ∧ r !! js "id" = Some (VStr (js "d1")).
Proof.
  split; [exact lakeview_valid|].
  destruct (create_returns_document lakeview (reliable "d1") 0 ∅
              (<[ js "image" := VStr (placeholder (js "Lakeview Cottage")) ]>
                 lakeview_fields) (js "d1") lakeview_valid)
    as (r & img & Hrun & Hid & _).
  - reflexivity.
  - reflexivity.
  - discriminate.
  - reflexivity.
  - exists r. split; [by rewrite Hrun|exact Hid].
Defined.

(** C3, as the spec words it, fails: a submitted [id] (here the empty
    string) takes the place of the store-assigned one in the response, and
    a submitted [image] that is falsy is not returned. *)
Lemma returns_store_id_and_fields_fails :
  ¬ returns_store_id_and_fields empty_id_fields
  ∧ ¬ returns_store_id_and_fields empty_image_fields.
Proof.
  split; intros H.
  - destruct (H empty_id_valid (reliable "d1") 0 ∅
                (<[ js "image" := VStr (placeholder (js "A")) ]> empty_id_fields)
                (js "d1") eq_refl eq_refl) as (r & Hr & Hid & _).
    { discriminate. }
    vm_compute in Hr. injection Hr as <-.
    vm_compute in Hid. discriminate Hid.
  - destruct (H empty_image_valid (reliable "d1") 0 ∅
                (<[ js "image" := VStr (placeholder (js "A")) ]> empty_image_fields)
                (js "d1") eq_refl eq_refl) as (r & Hr & _ & Hall & _).
    { discriminate. }
    vm_compute in Hr. injection Hr as <-.
    specialize (Hall (js "image") (VStr []) eq_refl).
    vm_compute in Hall. discriminate Hall.
Qed.

(** What the run on [{id: "", name: "A", price: 1, location: "T"}] sends
    when the store files the document under [d1]. *)
Example create_empty_id_response :
  ∃ r, result (exec (reliable "d1") 0 ∅ (create_handler (BObj empty_id_fields)))
       = Resolved (json 201 (VObj r))
       ∧ r !! js "id" = Some (VStr []).
Proof. eexists. split; reflexivity. Qed.

(** ** The create route: a name that is not a string *)

(** C10: when the name is truthy but not a string, the other required
    fields are truthy too, so that validation passes, and the image is
    absent or falsy, building the placeholder throws before the store is
    called: the response is the 500 of the create route, not a 400, and
    nothing is inserted. *)
Theorem create_non_string_name_500 (b : reqbody) (name : value)
    (ω : nat -> reply) (n : nat) (st : store) :
  prop b (js "name") = Some name -> truthy name = true ->
  (∀ s, name ≠ VStr s) ->
  validation_passes b ->
  missing_or_falsy b (js "image") ->
  create_handler b
  = Respond (json 500 (error_body "Failed to add property to the database."))
  ∧ image_expr b = Rejected TypeError
  ∧ exec ω n st (create_handler b)
    = {| result := Resolved (json 500 (error_body "Failed to add property to the database."));
         final := st; trace := [] |}
  ∧ inserted (exec ω n st (create_handler b)) = [].
Proof.
  intros Hname _ Hns Hv Himg.
  assert (He : image_expr b = Rejected TypeError).
  { apply image_expr_throws.
    - intros s Hs. rewrite Hname in Hs. injection Hs as ->. by apply (Hns s).
    - destruct Himg as [->|(v & -> & Hf)]; [reflexivity|exact Hf]. }
  rewrite (create_handler_throws b TypeError Hv He). auto.
Qed.

Lemma create_non_string_name_500_witness :
  validation_passes (BObj numeric_name_fields)
  ∧ exec (reliable "d1") 0 ∅ (create_handler (BObj numeric_name_fields))
    = {| result := Resolved (json 500 (error_body "Failed to add property to the database."));
         final := ∅; trace := [] |}.
Proof.
  assert (Hv : validation_passes (BObj numeric_name_fields)) by (by vm_compute).
  split; [exact Hv|].
  apply (create_non_string_name_500 (BObj numeric_name_fields)
           (VNum (number_of_Z 5)) (reliable "d1") 0 ∅).
  - reflexivity.
  - reflexivity.
  - discriminate.
  - exact Hv.
  - left. reflexivity.
Defined.

(** ** Runs of the list route *)

Lemma exec_list_rejected (ω : nat -> reply) (n : nat) (st : store) (e : error) :
  ω n = Reject e ->
  exec ω n st list_handler
  = {| result := Resolved (json 500 (error_body "Failed to fetch properties from the database."));
       final := st; trace := [(CGetAll, Some e)] |}.
Proof. intros Hω. unfold list_handler. simpl. by rewrite Hω. Qed.

Lemma exec_list_accepted (ω : nat -> reply) (n : nat) (st : store) (a : jsstring) :
  ω n = Accept a ->
  exec ω n st list_handler
  = {| result :=
         Resolved (json 200 (VArr ((fun doc : jsstring * obj =>
                                      VObj (spread {[ js "id" := VStr doc.1 ]} doc.2))
                                   <$> map_to_list st)));
       final := st; trace := [(CGetAll, None)] |}.
Proof. intros Hω. unfold list_handler. simpl. by rewrite Hω. Qed.

Lemma listed_spread (id : jsstring) (d : obj) :
  listed id d (VObj (spread {[ js "id" := VStr id ]} d)).
Proof.
  exists (spread {[ js "id" := VStr id ]} d). split; [reflexivity|].
  split; [|split].
  - intros k x Hk. by rewrite lookup_spread_id, Hk.
  - intros Hid. rewrite lookup_spread_id, Hid. by rewrite decide_True.
  - intros k. rewrite lookup_spread_id.
    destruct (d !! k) eqn:Hk; [eauto|].
    destruct (decide (k = js "id")); [auto|]. by intros [? ?].
Qed.

(** What an accepted read of the collection is answered with. *)
Lemma list_accepted_spec (ω : nat -> reply) (n : nat) (st : store) (a : jsstring) :
  ω n = Accept a ->
  ∃ l, exec ω n st list_handler
       = {| result := Resolved (json 200 (VArr l)); final := st;
            trace := [(CGetAll, None)] |}
       ∧ length l = size st
       ∧ Forall2 (fun (doc : jsstring * obj) v => listed doc.1 doc.2 v)
                 (map_to_list st) l
       ∧ (∀ id d, st !! id = Some d -> ∃ v, v ∈ l ∧ listed id d v)
       ∧ (∀ v, v ∈ l -> ∃ id d, st !! id = Some d ∧ listed id d v).
Proof.
  intros Hω. eexists. split; [by apply (exec_list_accepted ω n st a)|].
  split; [by rewrite length_fmap, length_map_to_list|].
  split.
  { apply Forall2_fmap_r, Forall_Forall2_diag, Forall_forall.
    intros [id d] _. apply listed_spread. }
  split.
  - intros id d Hd. eexists. split; [|apply (listed_spread id d)].
    apply list_elem_of_fmap. exists (id, d). split; [reflexivity|].
    by apply elem_of_map_to_list.
  - intros v Hv. apply list_elem_of_fmap in Hv as ([id d] & -> & Hin).
    apply elem_of_map_to_list in Hin. exists id, d. split; [done|].
    apply listed_spread.
Qed.

(** ** The list route *)

(** C6: when the store answers the read, the list route sends status 200
    and a sequence with one object per stored document, each combining
    the document's store-assigned [id] with its stored fields; for an
    empty collection the sequence is empty. *)
Theorem list_returns_all (ω : nat -> reply) (n : nat) (st : store) (a : jsstring) :
  ω n = Accept a ->
  ∃ l, exec ω n st list_handler
       = {| result := Resolved (json 200 (VArr l)); final := st;
            trace := [(CGetAll, None)] |}
       ∧ length l = size st
       ∧ Forall2 (fun (doc : jsstring * obj) v => listed doc.1 doc.2 v)
                 (map_to_list st) l
       ∧ (∀ id d, st !! id = Some d -> ∃ v, v ∈ l ∧ listed id d v)
       ∧ (∀ v, v ∈ l -> ∃ id d, st !! id = Some d ∧ listed id d v)
       ∧ (st = ∅ -> l = []).
Proof.
  intros Hω.
  destruct (list_accepted_spec ω n st a Hω) as (l & Hrun & Hlen & Hall & Hin & Hfrom).
  exists l. repeat (split; [assumption|]).
  intros ->. rewrite map_size_empty in Hlen. by apply nil_length_inv.
Qed.

Lemma list_returns_all_witness :
  reliable "d1" 0 = Accept (js "d1")
  ∧ result (exec (reliable "d1") 0 ∅ list_handler) = Resolved (json 200 (VArr [])).
Proof.
  split; [reflexivity|].
  destruct (list_returns_all (reliable "d1") 0 ∅ (js "d1") eq_refl)
    as (l & Hrun & _ & _ & _ & _ & Hempty).
  rewrite Hrun. simpl. by rewrite (Hempty eq_refl).
Defined.

Example list_one_listing :
  ∃ o, result (exec (reliable "d2") 0 one_listing list_handler)
       = Resolved (json 200 (VArr [VObj o]))
       ∧ o !! js "id" = Some (VStr (js "d1"))
       ∧ o !! js "name" = Some (VStr (js "Lakeview Cottage")).
Proof.
  eexists. split; [vm_compute; reflexivity|].
  split; vm_compute; reflexivity.
Qed.

(** ** Runs of the delete route *)

Lemma exec_delete_lookup_rejected (ω : nat -> reply) (n : nat) (st : store)
    (id : jsstring) (e : error) :
  ω n = Reject e ->
  exec ω n st (delete_handler id)
  = {| result := Resolved (json 500 (error_body "Failed to delete property from the database."));
       final := st; trace := [(CDocGet id, Some e)] |}.
Proof. intros Hω. unfold delete_handler. simpl. by rewrite Hω. Qed.

Lemma exec_delete_missing (ω : nat -> reply) (n : nat) (st : store)
    (id a : jsstring) :
  ω n = Accept a -> st !! id = None ->
  exec ω n st (delete_handler id)
  = {| result := Resolved (json 404 (error_body "Property not found."));
       final := st; trace := [(CDocGet id, None)] |}.
Proof.
  intros Hω Hid. unfold delete_handler. simpl. rewrite Hω, Hid.
  rewrite bool_decide_eq_false_2 by (by intros [? ?]). reflexivity.
Qed.

Lemma exec_delete_removed (ω : nat -> reply) (n : nat) (st : store)
    (id a a' : jsstring) (d : obj) :
  ω n = Accept a -> st !! id = Some d -> ω (S n) = Accept a' ->
  exec ω n st (delete_handler id)
  = {| result := Resolved (json 200 (message_body "Property deleted successfully."));
       final := delete id st;
       trace := [(CDocGet id, None); (CDocDelete id, None)] |}.
Proof.
  intros Hω Hid Hω'. unfold delete_handler. simpl. rewrite Hω, Hid.
  rewrite bool_decide_eq_true_2 by eauto. simpl. by rewrite Hω'.
Qed.

Lemma exec_delete_removal_rejected (ω : nat -> reply) (n : nat) (st : store)
    (id a : jsstring) (d : obj) (e : error) :
  ω n = Accept a -> st !! id = Some d -> ω (S n) = Reject e ->
  exec ω n st (delete_handler id)
  = {| result := Resolved (json 500 (error_body "Failed to delete property from the database."));
       final := st;
       trace := [(CDocGet id, None); (CDocDelete id, Some e)] |}.
Proof.
  intros Hω Hid Hω'. unfold delete_handler. simpl. rewrite Hω, Hid.
  rewrite bool_decide_eq_true_2 by eauto. simpl. by rewrite Hω'.
Qed.

(** ** The delete route *)

(** C4: when the lookup finds no document under the id, the delete route
    sends status 404 with [{error: "Property not found."}]; the lookup is
    its only store call and the store is as before. *)
Theorem delete_missing_404 (ω : nat -> reply) (n : nat) (st : store)
    (id a : jsstring) :
  st !! id = None -> ω n = Accept a ->
  exec ω n st (delete_handler id)
  = {| result := Resolved (json 404 (error_body "Property not found."));
       final := st; trace := [(CDocGet id, None)] |}.
Proof. intros Hid Hω. by apply (exec_delete_missing ω n st id a). Qed.

(** The example of the spec: [DELETE /api/properties/unknown-id]. *)
Lemma delete_missing_404_witness :
  one_listing !! js "unknown-id" = None
  ∧ exec (reliable "d2") 0 one_listing (delete_handler (js "unknown-id"))
    = {| result := Resolved (json 404 (error_body "Property not found."));
         final := one_listing; trace := [(CDocGet (js "unknown-id"), None)] |}.
Proof.
  assert (Hid : one_listing !! js "unknown-id" = None) by reflexivity.
  split; [exact Hid|].
  exact (delete_missing_404 (reliable "d2") 0 one_listing (js "unknown-id") (js "d2")
           Hid eq_refl).
Defined.

(** C5, as amended: when the id names a stored document and the store
    carries out the lookup and the removal, the delete route removes that document and no
    other, sends status 200 with
    [{message: "Property deleted successfully."}], and a listing made
    afterwards has an object for every other document, as before, and none
    for the removed one; no object of that listing shows the removed id,
    unless another document stores it in a field [id] of its own. *)
Theorem delete_existing_200 (ω : nat -> reply) (n : nat) (st : store)
    (id a a' : jsstring) (d : obj) :
  st !! id = Some d -> ω n = Accept a -> ω (S n) = Accept a' ->
  exec ω n st (delete_handler id)
  = {| result := Resolved (json 200 (message_body "Property deleted successfully."));
       final := delete id st;
       trace := [(CDocGet id, None); (CDocDelete id, None)] |}
  ∧ delete id st !! id = None
  ∧ (∀ j, j ≠ id -> delete id st !! j = st !! j)
  ∧ ∀ ω' n' a'', ω' n' = Accept a'' ->
      ∃ l, result (exec ω' n' (final (exec ω n st (delete_handler id))) list_handler)
           = Resolved (json 200 (VArr l))
           ∧ S (length l) = size st
           ∧ (∀ v, v ∈ l -> ∃ j dj, j ≠ id ∧ st !! j = Some dj ∧ listed j dj v)
           ∧ (∀ j dj, j ≠ id -> st !! j = Some dj -> ∃ v, v ∈ l ∧ listed j dj v)
           ∧ ((∀ j dj, j ≠ id -> st !! j = Some dj ->
                       dj !! js "id" ≠ Some (VStr id)) ->
              ∀ o, VObj o ∈ l -> o !! js "id" ≠ Some (VStr id)).
Proof.
  intros Hid Hω Hω'.
  rewrite (exec_delete_removed ω n st id a a' d Hω Hid Hω').
  split; [reflexivity|].
  split; [apply lookup_delete_eq|].
  split; [intros j Hj; by apply lookup_delete_ne|].
  intros ω' n' a'' Hl. cbn [final].
  destruct (list_accepted_spec ω' n' (delete id st) a'' Hl)
    as (l & Hrun & Hlen & _ & Hin & Hfrom).
  exists l. split; [by rewrite Hrun|].
  split.
  { rewrite Hlen. rewrite <- (insert_delete_id st id d Hid) at 2.
    symmetry. apply map_size_insert_None, lookup_delete_eq. }
  split; [|split].
  - intros v Hv. destruct (Hfrom v Hv) as (j & dj & Hj & Hlisted).
    apply lookup_delete_Some in Hj as [Hne Hj]. eauto.
  - intros j dj Hne Hj. apply Hin. rewrite lookup_delete_ne; done.
  - intros Hfields o Ho.
    destruct (Hfrom (VObj o) Ho) as (j & dj & Hj & o' & [= <-] & Hkeep & Hown & _).
    apply lookup_delete_Some in Hj as [Hne Hj].
    destruct (dj !! js "id") as [x|] eqn:Hx.
    + rewrite (Hkeep _ x Hx). intros [= ->]. by apply (Hfields j dj).
    + rewrite (Hown eq_refl). congruence.
Qed.

Lemma delete_existing_200_witness :
  is_Some (one_listing !! js "d1")
  ∧ exec (reliable "d2") 0 one_listing (delete_handler (js "d1"))
    = {| result := Resolved (json 200 (message_body "Property deleted successfully."));
         final := delete (js "d1") one_listing;
         trace := [(CDocGet (js "d1"), None); (CDocDelete (js "d1"), None)] |}.
Proof.
  split; [eexists; reflexivity|].
  apply (delete_existing_200 (reliable "d2") 0 one_listing (js "d1") (js "d2") (js "d2")
           (<[ js "image" := VStr (placeholder (js "Lakeview Cottage")) ]> lakeview_fields)
           eq_refl eq_refl eq_refl).
Defined.

(** C5, as the spec words it, fails: after two creates, the second with
    [id: "d1"] among its fields, and the delete of [d1] answered 200, the
    listing still shows an object with the id [d1]. *)
Lemma removed_id_not_listed_fails :
  ¬ removed_id_not_listed shadowed_listings (js "d1").
Proof.
  intros H.
  assert (Hdel : result (exec (reliable "d3") 0 shadowed_listings
                           (delete_handler (js "d1")))
                 = Resolved (json 200 (message_body "Property deleted successfully.")))
    by (vm_compute; reflexivity).
  assert (Hl : ∃ o, result (exec (reliable "d3") 0
                              (final (exec (reliable "d3") 0 shadowed_listings
                                        (delete_handler (js "d1"))))
                              list_handler)
                    = Resolved (json 200 (VArr [VObj o]))
                    ∧ o !! js "id" = Some (VStr (js "d1"))).
  { eexists. split; vm_compute; reflexivity. }
  destruct Hl as (o & Hl & Ho).
  exact (H (reliable "d3") 0 (reliable "d3") 0 [VObj o] Hdel Hl o
           (list_elem_of_here _ _) Ho).
Qed.

(** The same through the routes alone: the four requests are answered
    201, 201, 200 and 200, and the last answer lists the id [d1]. *)
Example delete_then_list_shows_id :
  ∃ r1 r2 o,
    (serve_all (two_ids "d1" "d2") 0 ∅
       [PostProperties lakeview; PostProperties lakeview_with_id;
        DeleteProperty (js "d1"); GetProperties]).1
    = [Resolved (json 201 r1); Resolved (json 201 r2);
       Resolved (json 200 (message_body "Property deleted successfully."));
       Resolved (json 200 (VArr [VObj o]))]
    ∧ o !! js "id" = Some (VStr (js "d1")).
Proof. eexists _, _, _. split; vm_compute; reflexivity. Qed.

Example delete_then_list :
  (serve_all (reliable "d1") 0 ∅
     [PostProperties lakeview; DeleteProperty (js "d1"); GetProperties]).1
  !! 2 = Some (Resolved (json 200 (VArr []))).
Proof. reflexivity. Qed.

(** ** Every run of every route *)

Lemma exec_list_cases (ω : nat -> reply) (n : nat) (st : store) :
  (∃ e, exec ω n st list_handler
        = {| result := Resolved (json 500 (error_body "Failed to fetch properties from the database."));
             final := st; trace := [(CGetAll, Some e)] |})
  ∨ (∃ a, ω n = Accept a
          ∧ ∃ l, exec ω n st list_handler
                 = {| result := Resolved (json 200 (VArr l)); final := st;
                      trace := [(CGetAll, None)] |}).
Proof.
  destruct (ω n) as [e|a] eqn:Hω.
  - left. exists e. by apply exec_list_rejected.
  - right. exists a. split; [done|]. eexists. by apply (exec_list_accepted ω n st a).
Qed.

Lemma exec_delete_cases (ω : nat -> reply) (n : nat) (st : store) (id : jsstring) :
  exec ω n st (delete_handler id)
  = {| result := Resolved (json 404 (error_body "Property not found."));
       final := st; trace := [(CDocGet id, None)] |}
  ∨ exec ω n st (delete_handler id)
    = {| result := Resolved (json 200 (message_body "Property deleted successfully."));
         final := delete id st;
         trace := [(CDocGet id, None); (CDocDelete id, None)] |}
  ∨ (∃ e, exec ω n st (delete_handler id)
          = {| result := Resolved (json 500 (error_body "Failed to delete property from the database."));
               final := st; trace := [(CDocGet id, Some e)] |})
  ∨ (∃ e, exec ω n st (delete_handler id)
          = {| result := Resolved (json 500 (error_body "Failed to delete property from the database."));
               final := st;
               trace := [(CDocGet id, None); (CDocDelete id, Some e)] |}).
Proof.
  destruct (ω n) as [e|a] eqn:Hω.
  - right; right; left. exists e. by apply exec_delete_lookup_rejected.
  - destruct (st !! id) as [d|] eqn:Hid.
    + destruct (ω (S n)) as [e|a'] eqn:Hω'.
      * right; right; right. exists e.
        by apply (exec_delete_removal_rejected ω n st id a d e).
      * right; left. by apply (exec_delete_removed ω n st id a a' d).
    + left. by apply (exec_delete_missing ω n st id a).
Qed.

(** ** Store failures *)

(** C7: whichever route is served, if the store rejects one of the calls
    of the run, the response has status 500 and the route's fixed message,
    whatever the store's error was, and the store is as it was before the
    request. *)
Theorem store_failure_500 (req : request) (ω : nat -> reply) (n : nat) (st : store) :
  store_failed (serve ω n st req) ->
  result (serve ω n st req) = Resolved (json 500 (error_body (generic_message req)))
  ∧ final (serve ω n st req) = st.
Proof.
  unfold serve. destruct req as [|b|id]; cbn [handle generic_message]; intros Hfail.
  - destruct (exec_list_cases ω n st) as [[e Hrun]|(a & _ & l & Hrun)];
      rewrite Hrun in *; [done|no_store_failure Hfail].
  - destruct (exec_create_cases ω n st b)
      as [Hrun|[Hrun|[(img & e & _ & Hrun)|(img & id & r & _ & Hrun)]]];
      rewrite Hrun in *; try done; no_store_failure Hfail.
  - destruct (exec_delete_cases ω n st id) as [Hrun|[Hrun|[[e Hrun]|[e Hrun]]]];
      rewrite Hrun in *; try done; no_store_failure Hfail.
Qed.

Lemma store_failure_500_witness :
  store_failed (serve (failing_first "d1") 0 one_listing (PostProperties lakeview))
  ∧ result (serve (failing_first "d1") 0 one_listing (PostProperties lakeview))
    = Resolved (json 500 (error_body "Failed to add property to the database."))
  ∧ final (serve (failing_first "d1") 0 one_listing (PostProperties lakeview))
    = one_listing.
Proof.
  assert (Hfail : store_failed
                    (serve (failing_first "d1") 0 one_listing (PostProperties lakeview))).
  { eexists _, _. apply list_elem_of_here. }
  split; [exact Hfail|].
  exact (store_failure_500 (PostProperties lakeview) (failing_first "d1") 0
           one_listing Hfail).
Defined.

(** A removal the store rejects after an accepted lookup. *)
Example delete_removal_rejected :
  exec (fun n => match n with 1 => Reject (StoreError (js "ABORTED")) | _ => Accept [] end)
       0 one_listing (delete_handler (js "d1"))
  = {| result := Resolved (json 500 (error_body "Failed to delete property from the database."));
       final := one_listing;
       trace := [(CDocGet (js "d1"), None);
                 (CDocDelete (js "d1"), Some (StoreError (js "ABORTED")))] |}.
Proof. reflexivity. Qed.

(** ** The image invariant *)

Lemma image_expr_stored (b : reqbody) (img : value) :
  image_expr b = Resolved img ->
  has_image (<[ js "image" := img ]> (own_enumerable b)).
Proof. intros _. unfold has_image. rewrite lookup_insert_eq. eauto. Qed.

(** One request: the invariant is kept, and documents enter the store
    through the create route only. *)
Lemma serve_step_image (req : request) (ω : nat -> reply) (n : nat) (st : store) :
  all_have_image st ->
  all_have_image (final (serve ω n st req))
  ∧ (∀ d e, (CAdd d, e) ∈ trace (serve ω n st req) ->
       ∃ b img, req = PostProperties b
                ∧ d !! js "image" = Some img ∧ image_choice b img)
  ∧ (∀ id d, final (serve ω n st req) !! id = Some d ->
       st !! id = Some d ∨ d ∈ inserted (serve ω n st req)).
Proof.
  intros Hinv.
  unfold serve. destruct req as [|b|id]; cbn [handle].
  - destruct (exec_list_cases ω n st) as [[e Hrun]|(a & _ & l & Hrun)];
      rewrite Hrun; cbn [final trace]; (split; [done|]);
      (split; [|by auto]); intros d e' Hin;
      apply list_elem_of_singleton in Hin; discriminate Hin.
  - destruct (exec_create_cases ω n st b)
      as [Hrun|[Hrun|[(img & e & He & Hrun)|(img & id & r & He & Hrun)]]];
      rewrite Hrun; cbn [final trace].
    + split; [done|]. split; [|by auto]. intros d e Hin. by apply elem_of_nil in Hin.
    + split; [done|]. split; [|by auto]. intros d e Hin. by apply elem_of_nil in Hin.
    + split; [done|]. split; [|by auto]. intros d e' Hin.
      apply list_elem_of_singleton in Hin. injection Hin as -> _.
      exists b, img. split; [done|]. split; [apply lookup_insert_eq|].
      by apply image_expr_choice.
    + split; [|split].
      * intros j dj Hj. apply lookup_insert_Some in Hj as [[_ <-]|[_ Hj]].
        -- by apply image_expr_stored.
        -- by apply (Hinv j).
      * intros d e' Hin.
        apply list_elem_of_singleton in Hin. injection Hin as -> _.
        exists b, img. split; [done|]. split; [apply lookup_insert_eq|].
        by apply image_expr_choice.
      * intros j dj Hj. apply lookup_insert_Some in Hj as [[_ <-]|[_ Hj]].
        -- right. apply list_elem_of_singleton. reflexivity.
        -- by left.
  - destruct (exec_delete_cases ω n st id) as [Hrun|[Hrun|[[e Hrun]|[e Hrun]]]];
      rewrite Hrun; cbn [final trace].
    + split; [done|]. split; [|by auto].
      intros d e Hin. apply list_elem_of_singleton in Hin. discriminate Hin.
    + split; [|split].
      * intros j dj Hj. apply lookup_delete_Some in Hj as [_ Hj]. by apply (Hinv j).
      * intros d e Hin.
        apply elem_of_cons in Hin as [Hin|Hin]; [discriminate Hin|].
        apply list_elem_of_singleton in Hin. discriminate Hin.
      * intros j dj Hj. apply lookup_delete_Some in Hj as [_ Hj]. by left.
    + split; [done|]. split; [|by auto].
      intros d e' Hin. apply list_elem_of_singleton in Hin. discriminate Hin.
    + split; [done|]. split; [|by auto]. intros d e' Hin.
      apply elem_of_cons in Hin as [Hin|Hin]; [discriminate Hin|].
      apply list_elem_of_singleton in Hin. discriminate Hin.
Qed.

(** C8: serving a request keeps the invariant that every stored document
    has an [image] field.  A document handed to the store comes from the
    create route and carries as [image] the caller's value or the
    placeholder; whatever is in the store afterwards was there before or
    was inserted by this run; and every object of a listing made
    afterwards has an [image]. *)
Theorem image_always_present (req : request) (ω : nat -> reply) (n : nat)
    (st : store) :
  all_have_image st ->
  all_have_image (final (serve ω n st req))
  ∧ (∀ d e, (CAdd d, e) ∈ trace (serve ω n st req) ->
       ∃ b img, req = PostProperties b
                ∧ d !! js "image" = Some img ∧ image_choice b img)
  ∧ (∀ id d, final (serve ω n st req) !! id = Some d ->
       st !! id = Some d ∨ d ∈ inserted (serve ω n st req))
  ∧ (∀ ω' n' l,
       result (serve ω' n' (final (serve ω n st req)) GetProperties)
       = Resolved (json 200 (VArr l)) ->
       ∀ v, v ∈ l -> ∃ o, v = VObj o ∧ is_Some (o !! js "image")).
Proof.
  intros Hinv.
  destruct (serve_step_image req ω n st Hinv) as (Hfinal & Hadd & Hfrom).
  repeat (split; [assumption|]).
  intros ω' n' l Hlist v Hv. unfold serve at 1 in Hlist. cbn [handle] in Hlist.
  destruct (ω' n') as [e|a] eqn:Hω'.
  - rewrite (exec_list_rejected ω' n' _ e Hω') in Hlist. discriminate Hlist.
  - destruct (list_accepted_spec ω' n' (final (serve ω n st req)) a Hω')
      as (l' & Hrun & _ & _ & _ & Hl').
    rewrite Hrun in Hlist. injection Hlist as <-.
    destruct (Hl' v Hv) as (j & dj & Hj & o & -> & Hfields & _).
    exists o. split; [done|].
    destruct (Hfinal j dj Hj) as [x Hx]. exists x. by apply Hfields.
Qed.

Lemma image_always_present_witness :
  all_have_image ∅
  ∧ all_have_image (final (serve (reliable "d1") 0 ∅ (PostProperties lakeview))).
Proof.
  assert (Hempty : all_have_image ∅).
  { intros id d Hd. by rewrite lookup_empty in Hd. }
  split; [exact Hempty|].
  exact (proj1 (image_always_present (PostProperties lakeview) (reliable "d1") 0 ∅
                  Hempty)).
Defined.

(** Starting from an empty collection, any sequence of requests leaves a
    collection all of whose documents have an [image]. *)
Lemma serve_all_image (reqs : list request) (ω : nat -> reply) (n : nat)
    (st : store) :
  all_have_image st -> all_have_image (serve_all ω n st reqs).2.
Proof.
  revert n st. induction reqs as [|req reqs IH]; intros n st Hinv; [exact Hinv|].
  cbn [serve_all snd]. apply IH.
  by destruct (serve_step_image req ω n st Hinv).
Qed.

(** ** A submitted [id] *)

(** C9: when a valid creation input has a field [id] of its own and the
    insertion succeeds, the stored document keeps that field as submitted,
    and the [id] of the object in the 201 response, like the [id] of the
    object a later listing shows for that document, is the submitted
    value; it is the store-assigned identifier only if the two happen to
    coincide. *)
Theorem create_submitted_id_wins (o : obj) (v : value) (ω : nat -> reply)
    (n : nat) (st : store) (d : obj) (id : jsstring) :
  validation_passes (BObj o) ->
  o !! js "id" = Some v ->
  inserted (exec ω n st (create_handler (BObj o))) = [d] ->
  ω n = Accept id ->
  d !! js "id" = Some v
  ∧ final (exec ω n st (create_handler (BObj o))) !! id = Some d
  ∧ (∃ r, result (exec ω n st (create_handler (BObj o)))
          = Resolved (json 201 (VObj r))
          ∧ r !! js "id" = Some v
          ∧ (v ≠ VStr id -> r !! js "id" ≠ Some (VStr id)))
  ∧ (∀ ω' n' a, ω' n' = Accept a ->
       ∃ l r', result (exec ω' n' (final (exec ω n st (create_handler (BObj o))))
                         list_handler)
               = Resolved (json 200 (VArr l))
               ∧ VObj r' ∈ l ∧ listed id d (VObj r')
               ∧ r' !! js "id" = Some v
               ∧ (v ≠ VStr id -> r' !! js "id" ≠ Some (VStr id))).
Proof.
  intros Hv Hid Hins Hω.
  destruct (inserted_create_inv ω n st (BObj o) d Hv Hins)
    as (img & id' & He & Hω' & ->).
  assert (id' = id) as -> by congruence.
  rewrite (exec_create_accepted ω n st (BObj o) img id Hv He Hω).
  cbn [own_enumerable result final].
  assert (Hd : <[ js "image" := img ]> o !! js "id" = Some v).
  { by rewrite lookup_insert_ne. }
  assert (Hshown : spread {[ js "id" := VStr id ]} (<[ js "image" := img ]> o) !! js "id"
                   = Some v).
  { by rewrite lookup_spread_id, Hd. }
  split; [exact Hd|].
  split; [apply lookup_insert_eq|].
  split.
  { eexists. split; [reflexivity|]. split; [exact Hshown|].
    intros Hne. rewrite Hshown. congruence. }
  intros ω' n' a Hl.
  rewrite (exec_list_accepted ω' n' _ a Hl). cbn [result].
  eexists _, (spread {[ js "id" := VStr id ]} (<[ js "image" := img ]> o)).
  split; [reflexivity|].
  split.
  { apply list_elem_of_fmap. exists (id, <[ js "image" := img ]> o).
    split; [reflexivity|]. apply elem_of_map_to_list, lookup_insert_eq. }
  split; [apply listed_spread|].
  split; [exact Hshown|].
  intros Hne. rewrite Hshown. congruence.
Qed.

Lemma create_submitted_id_wins_witness :
  validation_passes (BObj empty_id_fields)
  ∧ ∃ r, result (exec (reliable "d1") 0 ∅ (create_handler (BObj empty_id_fields)))
         = Resolved (json 201 (VObj r))
         ∧ r !! js "id" = Some (VStr []).
Proof.
  split; [exact empty_id_valid|].
  destruct (create_submitted_id_wins empty_id_fields (VStr []) (reliable "d1") 0 ∅
              (<[ js "image" := VStr (placeholder (js "A")) ]> empty_id_fields)
              (js "d1") empty_id_valid eq_refl eq_refl eq_refl)
    as (_ & _ & (r & Hr & Hid & _) & _).
  exists r. split; [exact Hr|exact Hid].
Defined.

(** A listing shows a stored [id] field in place of the identifier the
    document is stored under. *)
Example list_shows_stored_id :
  ∃ o, result (exec (reliable "d3") 0 {[ js "d2" := empty_id_fields ]} list_handler)
       = Resolved (json 200 (VArr [VObj o]))
       ∧ o !! js "id" = Some (VStr []).
Proof. eexists. split; vm_compute; reflexivity. Qed.

(** * Further properties of the routes *)

(** ** Catching *)

(** A program under a [try] whose [catch] block sends a response never
    lets an exception escape, whatever the store replies. *)
Lemma try_catch_responds (p : prog) (h : error -> prog) (ω : nat -> reply)
    (n : nat) (st : store) :
  (∀ e, ∃ r, h e = Respond r) ->
  ∃ r, result (exec ω n st (try_catch p h)) = Resolved r.
Proof.
  intros Hh. revert n st.
  induction p as [r|e|k IH|d k IH|id k IH|id k IH]; intros n st; cbn [try_catch].
  - by exists r.
  - destruct (Hh e) as [r ->]. by exists r.
  - cbn [exec]. destruct (ω n); apply IH.
  - cbn [exec]. destruct (ω n); apply IH.
  - cbn [exec]. destruct (ω n); apply IH.
  - cbn [exec]. destruct (ω n); apply IH.
Qed.

(** The ways a run of the create route can go, with what decides between
    them. *)
Lemma create_run_cases (ω : nat -> reply) (n : nat) (st : store) (b : reqbody) :
  (¬ validation_passes b
   ∧ exec ω n st (create_handler b)
     = {| result := Resolved (json 400 (error_body "Missing required property fields."));
          final := st; trace := [] |})
  ∨ ((b = BUndefined ∨ validation_passes b ∧ ∃ e, image_expr b = Rejected e)
     ∧ exec ω n st (create_handler b)
       = {| result := Resolved (json 500 (error_body "Failed to add property to the database."));
            final := st; trace := [] |})
  ∨ (validation_passes b ∧ ∃ img e, image_expr b = Resolved img ∧ ω n = Reject e
     ∧ exec ω n st (create_handler b)
       = {| result := Resolved (json 500 (error_body "Failed to add property to the database."));
            final := st;
            trace := [(CAdd (<[ js "image" := img ]> (own_enumerable b)), Some e)] |})
  ∨ (validation_passes b ∧ ∃ img id, image_expr b = Resolved img ∧ ω n = Accept id
     ∧ exec ω n st (create_handler b)
       = {| result :=
              Resolved (json 201 (VObj (spread {[ js "id" := VStr id ]}
                                          (<[ js "image" := img ]> (own_enumerable b)))));
            final := <[ id := <[ js "image" := img ]> (own_enumerable b) ]> st;
            trace := [(CAdd (<[ js "image" := img ]> (own_enumerable b)), None)] |}).
Proof.
  destruct (decide (validation_passes b)) as [Hv|Hno].
  - destruct (image_expr b) as [img|e] eqn:He.
    + destruct (ω n) as [e|id] eqn:Hω.
      * right; right; left. split; [done|]. exists img, e.
        split; [done|]. split; [done|]. by apply exec_create_rejected.
      * right; right; right. split; [done|]. exists img, id.
        split; [done|]. split; [done|]. by apply exec_create_accepted.
    + right; left. split; [eauto|].
      by apply (exec_create_throws ω n st b e).
  - destruct (body_parsed_or_not b) as [->|Hb].
    + right; left. split; [by left|]. by rewrite create_handler_undefined.
    + left. split; [done|]. by rewrite (create_handler_rejects b Hb Hno).
Qed.

(** A run of the create route that inserted a document, in full. *)
Lemma created_run (ω : nat -> reply) (n : nat) (st : store) (b : reqbody)
    (d : obj) (id : jsstring) :
  inserted (exec ω n st (create_handler b)) = [d] -> ω n = Accept id ->
  validation_passes b
  ∧ (∃ img, image_expr b = Resolved img
            ∧ d = <[ js "image" := img ]> (own_enumerable b))
  ∧ exec ω n st (create_handler b)
    = {| result := Resolved (json 201 (VObj (spread {[ js "id" := VStr id ]} d)));
         final := <[ id := d ]> st; trace := [(CAdd d, None)] |}.
Proof.
  intros Hins Hω.
  destruct (create_run_cases ω n st b)
    as [[_ Hrun]|[[_ Hrun]|[(_ & img & e & _ & _ & Hrun)
       |(Hv & img & id' & He & Hω' & Hrun)]]];
    rewrite Hrun in Hins; try discriminate Hins.
  injection Hins as <-. assert (id' = id) as -> by congruence.
  split; [done|]. split; [eauto|done].
Qed.

(** ** Responses and store calls of every run *)

(** X1: every request is answered: whatever the body or id and whatever
    the store replies, no exception escapes the handler, and the status
    sent is one of the route's own: 200 or 500 for the list route, 201,
    400 or 500 for the create route, 200, 404 or 500 for the delete
    route. *)
Theorem every_request_answered (req : request) (ω : nat -> reply) (n : nat)
    (st : store) :
  ∃ r, result (serve ω n st req) = Resolved r ∧ status r ∈ allowed_statuses req.
Proof.
  unfold serve. destruct req as [|b|id]; cbn [handle allowed_statuses].
  - destruct (exec_list_cases ω n st) as [[e Hrun]|(a & _ & l & Hrun)];
      rewrite Hrun; eexists; (split; [reflexivity|]); cbn;
      rewrite !elem_of_cons; auto.
  - destruct (exec_create_cases ω n st b)
      as [Hrun|[Hrun|[(img & e & _ & Hrun)|(img & id & r & _ & Hrun)]]];
      rewrite Hrun; eexists; (split; [reflexivity|]); cbn;
      rewrite !elem_of_cons; auto.
  - destruct (exec_delete_cases ω n st id) as [Hrun|[Hrun|[[e Hrun]|[e Hrun]]]];
      rewrite Hrun; eexists; (split; [reflexivity|]); cbn;
      rewrite !elem_of_cons; auto.
Qed.

(** X2: the store is changed only by a create answered 201 and by a
    delete answered 200: after a run of the list route, and after any run
    answered with a status of 400 or more, the collection is what it was
    and nothing was inserted. *)
Theorem store_changes_only_on_success (req : request) (ω : nat -> reply)
    (n : nat) (st : store) (r : response) :
  result (serve ω n st req) = Resolved r ->
  400 ≤ status r ∨ req = GetProperties ->
  final (serve ω n st req) = st ∧ inserted (serve ω n st req) = [].
Proof.
  unfold serve. destruct req as [|b|id]; cbn [handle]; intros Hres Hst.
  - destruct (exec_list_cases ω n st) as [[e Hrun]|(a & _ & l & Hrun)];
      by rewrite Hrun.
  - destruct Hst as [Hst|?]; [|done].
    destruct (create_run_cases ω n st b)
      as [[_ Hrun]|[[_ Hrun]|[(_ & img & e & _ & _ & Hrun)
         |(_ & img & id & _ & _ & Hrun)]]];
      rewrite Hrun in *; try done.
    injection Hres as <-. cbn in Hst. lia.
  - destruct Hst as [Hst|?]; [|done].
    destruct (exec_delete_cases ω n st id) as [Hrun|[Hrun|[[e Hrun]|[e Hrun]]]];
      rewrite Hrun in *; try done.
    injection Hres as <-. cbn in Hst. lia.
Qed.

Lemma store_changes_only_on_success_witness :
  result (serve (reliable "d2") 0 one_listing (DeleteProperty (js "unknown-id")))
  = Resolved (json 404 (error_body "Property not found."))
  ∧ final (serve (reliable "d2") 0 one_listing (DeleteProperty (js "unknown-id")))
    = one_listing.
Proof.
  assert (Hres : result (serve (reliable "d2") 0 one_listing
                           (DeleteProperty (js "unknown-id")))
                 = Resolved (json 404 (error_body "Property not found.")))
    by (vm_compute; reflexivity).
  split; [exact Hres|].
  refine (proj1 (store_changes_only_on_success (DeleteProperty (js "unknown-id"))
                   (reliable "d2") 0 one_listing _ Hres _)).
  left. cbn. lia.
Defined.

(** X3: the store calls of a run are those its route is there for.  The
    list route reads the collection once and makes no other call; the
    create route makes no call or one insert, and never reads; the delete
    route never inserts, touches no id but the requested one, and asks for
    the removal only after the store answered the lookup and the document
    was there. *)
Theorem store_calls_permitted (req : request) (ω : nat -> reply) (n : nat)
    (st : store) :
  permitted_trace req st (trace (serve ω n st req)).
Proof.
  unfold serve. destruct req as [|b|id]; cbn [handle permitted_trace].
  - destruct (exec_list_cases ω n st) as [[e Hrun]|(a & _ & l & Hrun)];
      rewrite Hrun; eauto.
  - destruct (exec_create_cases ω n st b)
      as [Hrun|[Hrun|[(img & e & _ & Hrun)|(img & id & r & _ & Hrun)]]];
      rewrite Hrun; cbn [trace]; eauto.
  - destruct (ω n) as [e|a] eqn:Hω.
    + rewrite (exec_delete_lookup_rejected ω n st id e Hω). eauto.
    + destruct (st !! id) as [d|] eqn:Hid.
      * destruct (ω (S n)) as [e|a'] eqn:Hω'.
        -- rewrite (exec_delete_removal_rejected ω n st id a d e Hω Hid Hω').
           right. eauto.
        -- rewrite (exec_delete_removed ω n st id a a' d Hω Hid Hω').
           right. eauto.
      * rewrite (exec_delete_missing ω n st id a Hω Hid). eauto.
Qed.

(** ** Bodies the create route turns down *)

(** X4: a request body that is a JSON array is answered 400 whatever it
    holds: an array has no property [name], so the handler stops at its
    validation and makes no store call. *)
Theorem create_array_body_400 (l : list value) (ω : nat -> reply) (n : nat)
    (st : store) :
  exec ω n st (create_handler (BArr l))
  = {| result := Resolved (json 400 (error_body "Missing required property fields."));
       final := st; trace := [] |}.
Proof.
  rewrite create_handler_rejects; [reflexivity|discriminate|].
  intros [Hname _]. rewrite array_no_name in Hname. discriminate.
Qed.

(** ** What the stored documents look like *)

Lemma created_document_well_formed (b : reqbody) (img : value) :
  validation_passes b -> image_expr b = Resolved img ->
  well_formed_document (<[ js "image" := img ]> (own_enumerable b)).
Proof.
  intros Hv He. destruct (validation_passes_object b Hv) as [o ->].
  destruct Hv as (Hname & Hprice & Hloc). cbn [own_enumerable prop] in *.
  unfold well_formed_document.
  rewrite !lookup_insert_ne by discriminate. rewrite lookup_insert_eq.
  repeat (split; [assumption|]). cbn. by apply (image_expr_truthy (BObj o)).
Qed.

(** X5: every document the create route hands to the store has [name],
    [price], [location] and [image] present and truthy, and serving a
    request, of any route and with any replies of the store, keeps a
    collection of such documents one. *)
Theorem stored_documents_well_formed (req : request) (ω : nat -> reply)
    (n : nat) (st : store) :
  all_well_formed st ->
  all_well_formed (final (serve ω n st req))
  ∧ ∀ d e, (CAdd d, e) ∈ trace (serve ω n st req) -> well_formed_document d.
Proof.
  intros Hinv. unfold serve. destruct req as [|b|id]; cbn [handle].
  - destruct (exec_list_cases ω n st) as [[e Hrun]|(a & _ & l & Hrun)];
      rewrite Hrun; cbn [final trace]; (split; [done|]); intros d e' Hin;
      apply list_elem_of_singleton in Hin; discriminate Hin.
  - destruct (create_run_cases ω n st b)
      as [[_ Hrun]|[[_ Hrun]|[(Hv & img & e & He & _ & Hrun)
         |(Hv & img & id & He & _ & Hrun)]]];
      rewrite Hrun; cbn [final trace].
    + split; [done|]. intros d e Hin. by apply elem_of_nil in Hin.
    + split; [done|]. intros d e' Hin. by apply elem_of_nil in Hin.
    + split; [done|]. intros d e' Hin.
      apply list_elem_of_singleton in Hin. injection Hin as -> _.
      by apply created_document_well_formed.
    + split.
      * intros j dj Hj. apply lookup_insert_Some in Hj as [[_ <-]|[_ Hj]].
        -- by apply created_document_well_formed.
        -- by apply (Hinv j).
      * intros d e' Hin.
        apply list_elem_of_singleton in Hin. injection Hin as -> _.
        by apply created_document_well_formed.
  - destruct (exec_delete_cases ω n st id) as [Hrun|[Hrun|[[e Hrun]|[e Hrun]]]];
      rewrite Hrun; cbn [final trace].
    + split; [done|]. intros d e Hin.
      apply list_elem_of_singleton in Hin. discriminate Hin.
    + split.
      * intros j dj Hj. apply lookup_delete_Some in Hj as [_ Hj]. by apply (Hinv j).
      * intros d e Hin.
        apply elem_of_cons in Hin as [Hin|Hin]; [discriminate Hin|].
        apply list_elem_of_singleton in Hin. discriminate Hin.
    + split; [done|]. intros d e' Hin.
      apply list_elem_of_singleton in Hin. discriminate Hin.
    + split; [done|]. intros d e' Hin.
      apply elem_of_cons in Hin as [Hin|Hin]; [discriminate Hin|].
      apply list_elem_of_singleton in Hin. discriminate Hin.
Qed.

Lemma stored_documents_well_formed_witness :
  all_well_formed ∅
  ∧ all_well_formed (final (serve (reliable "d1") 0 ∅ (PostProperties lakeview))).
Proof.
  assert (Hempty : all_well_formed ∅).
  { intros id d Hd. by rewrite lookup_empty in Hd. }
  split; [exact Hempty|].
  exact (proj1 (stored_documents_well_formed (PostProperties lakeview)
                  (reliable "d1") 0 ∅ Hempty)).
Defined.

(** ** Requests one after the other *)

(** X6: a listing made after a successful create, when the store filed
    the document under an identifier that was free, has one object more
    than the collection had documents: an object for the new document and,
    as before, one for each document that was there. *)
Theorem create_then_list (b : reqbody) (ω : nat -> reply) (n : nat) (st : store)
    (d : obj) (id : jsstring) (ω' : nat -> reply) (n' : nat) (a : jsstring) :
  inserted (exec ω n st (create_handler b)) = [d] ->
  ω n = Accept id -> st !! id = None -> ω' n' = Accept a ->
  ∃ l, result (exec ω' n' (final (exec ω n st (create_handler b))) list_handler)
       = Resolved (json 200 (VArr l))
       ∧ length l = S (size st)
       ∧ (∃ v, v ∈ l ∧ listed id d v)
       ∧ (∀ j dj, st !! j = Some dj -> ∃ v, v ∈ l ∧ listed j dj v)
       ∧ (∀ v, v ∈ l ->
               listed id d v ∨ ∃ j dj, st !! j = Some dj ∧ listed j dj v).
Proof.
  intros Hins Hω Hfree Hl.
  destruct (created_run ω n st b d id Hins Hω) as (_ & _ & Hrun).
  rewrite Hrun. cbn [final].
  destruct (list_accepted_spec ω' n' (<[ id := d ]> st) a Hl)
    as (l & Hlist & Hlen & _ & Hin & Hfrom).
  exists l. split; [by rewrite Hlist|].
  split; [by rewrite Hlen, map_size_insert_None|].
  split; [apply Hin, lookup_insert_eq|].
  split.
  - intros j dj Hj. apply Hin. rewrite lookup_insert_ne; [done|]. congruence.
  - intros v Hv. destruct (Hfrom v Hv) as (j & dj & Hj & Hlisted).
    apply lookup_insert_Some in Hj as [[<- <-]|[_ Hj]]; eauto.
Qed.

Lemma create_then_list_witness :
  one_listing !! js "d2" = None
  ∧ ∃ l, result (exec (reliable "d3") 0
                   (final (exec (reliable "d2") 0 one_listing (create_handler lakeview)))
                   list_handler)
         = Resolved (json 200 (VArr l))
         ∧ length l = 2.
Proof.
  assert (Hfree : one_listing !! js "d2" = None) by reflexivity.
  split; [exact Hfree|].
  destruct (create_then_list lakeview (reliable "d2") 0 one_listing
              (<[ js "image" := VStr (placeholder (js "Lakeview Cottage")) ]>
                 lakeview_fields)
              (js "d2") (reliable "d3") 0 (js "d3"))
    as (l & Hres & Hlen & _).
  - vm_compute. reflexivity.
  - reflexivity.
  - exact Hfree.
  - reflexivity.
  - exists l. split; [exact Hres|]. rewrite Hlen. reflexivity.
Defined.

(** X7: the object of a 201 response is, field for field, the object a
    later listing shows for the new document. *)
Theorem create_response_is_listed (b : reqbody) (ω : nat -> reply) (n : nat)
    (st : store) (d : obj) (id : jsstring) (ω' : nat -> reply) (n' : nat)
    (a : jsstring) :
  inserted (exec ω n st (create_handler b)) = [d] ->
  ω n = Accept id -> ω' n' = Accept a ->
  ∃ r l, result (exec ω n st (create_handler b)) = Resolved (json 201 (VObj r))
         ∧ result (exec ω' n' (final (exec ω n st (create_handler b))) list_handler)
           = Resolved (json 200 (VArr l))
         ∧ VObj r ∈ l.
Proof.
  intros Hins Hω Hl.
  destruct (created_run ω n st b d id Hins Hω) as (_ & _ & Hrun).
  rewrite Hrun. cbn [final result].
  rewrite (exec_list_accepted ω' n' _ a Hl). cbn [result].
  eexists _, _. split; [reflexivity|]. split; [reflexivity|].
  apply list_elem_of_fmap. exists (id, d). split; [reflexivity|].
  apply elem_of_map_to_list, lookup_insert_eq.
Qed.

Lemma create_response_is_listed_witness :
  ∃ r l, result (exec (reliable "d2") 0 one_listing (create_handler lakeview))
         = Resolved (json 201 (VObj r))
         ∧ result (exec (reliable "d3") 0
                     (final (exec (reliable "d2") 0 one_listing (create_handler lakeview)))
                     list_handler)
           = Resolved (json 200 (VArr l))
         ∧ VObj r ∈ l.
Proof.
  apply (create_response_is_listed lakeview (reliable "d2") 0 one_listing
           (<[ js "image" := VStr (placeholder (js "Lakeview Cottage")) ]>
              lakeview_fields)
           (js "d2") (reliable "d3") 0 (js "d3")).
  - vm_compute. reflexivity.
  - reflexivity.
  - reflexivity.
Defined.

(** X8: deleting the document a create has just stored, with the id the
    store filed it under, is answered 200 and leaves the collection as it
    was before the create, provided that id was free and the store carries
    out the lookup and the removal. *)
Theorem create_then_delete (b : reqbody) (ω : nat -> reply) (n : nat) (st : store)
    (d : obj) (id : jsstring) (ω' : nat -> reply) (n' : nat) (a a' : jsstring) :
  inserted (exec ω n st (create_handler b)) = [d] ->
  ω n = Accept id -> st !! id = None ->
  ω' n' = Accept a -> ω' (S n') = Accept a' ->
  exec ω' n' (final (exec ω n st (create_handler b))) (delete_handler id)
  = {| result := Resolved (json 200 (message_body "Property deleted successfully."));
       final := st;
       trace := [(CDocGet id, None); (CDocDelete id, None)] |}.
Proof.
  intros Hins Hω Hfree Hget Hdel.
  destruct (created_run ω n st b d id Hins Hω) as (_ & _ & Hrun).
  rewrite Hrun. cbn [final].
  rewrite (exec_delete_removed ω' n' (<[ id := d ]> st) id a a' d Hget
             (lookup_insert_eq st id d) Hdel).
  by rewrite delete_insert_id.
Qed.

Lemma create_then_delete_witness :
  one_listing !! js "d2" = None
  ∧ final (exec (reliable "d3") 0
             (final (exec (reliable "d2") 0 one_listing (create_handler lakeview)))
             (delete_handler (js "d2")))
    = one_listing.
Proof.
  assert (Hfree : one_listing !! js "d2" = None) by reflexivity.
  split; [exact Hfree|].
  rewrite (create_then_delete lakeview (reliable "d2") 0 one_listing
             (<[ js "image" := VStr (placeholder (js "Lakeview Cottage")) ]>
                lakeview_fields)
             (js "d2") (reliable "d3") 0 (js "d3") (js "d3")).
  - reflexivity.
  - vm_compute. reflexivity.
  - reflexivity.
  - exact Hfree.
  - reflexivity.
  - reflexivity.
Defined.

(** X9: a second delete of the same id, after one that was answered 200,
    finds nothing: it is answered 404 and changes nothing more. *)
Theorem delete_twice_404 (ω : nat -> reply) (n : nat) (st : store) (id : jsstring)
    (ω' : nat -> reply) (n' : nat) (a : jsstring) :
  result (exec ω n st (delete_handler id))
  = Resolved (json 200 (message_body "Property deleted successfully.")) ->
  ω' n' = Accept a ->
  exec ω' n' (final (exec ω n st (delete_handler id))) (delete_handler id)
  = {| result := Resolved (json 404 (error_body "Property not found."));
       final := final (exec ω n st (delete_handler id));
       trace := [(CDocGet id, None)] |}.
Proof.
  intros Hfirst Hget.
  apply (exec_delete_missing ω' n' _ id a Hget).
  destruct (exec_delete_cases ω n st id) as [Hrun|[Hrun|[[e Hrun]|[e Hrun]]]];
    rewrite Hrun in *; try discriminate Hfirst.
  apply lookup_delete_eq.
Qed.

Lemma delete_twice_404_witness :
  result (exec (reliable "d2") 0
            (final (exec (reliable "d2") 0 one_listing (delete_handler (js "d1"))))
            (delete_handler (js "d1")))
  = Resolved (json 404 (error_body "Property not found.")).
Proof.
  rewrite (delete_twice_404 (reliable "d2") 0 one_listing (js "d1")
             (reliable "d2") 0 (js "d2")).
  - reflexivity.
  - vm_compute. reflexivity.
  - reflexivity.
Defined.

(** X10: the create route does not look for a listing that is already
    there: when a body is submitted a second time and the store files the
    two inserts under different ids, both requests are answered 201 with
    the same fields and the collection ends up with two copies of the
    document. *)
Theorem create_twice_stores_two (b : reqbody) (ω : nat -> reply) (n : nat)
    (st : store) (d : obj) (id1 : jsstring) (ω' : nat -> reply) (n' : nat)
    (id2 : jsstring) :
  inserted (exec ω n st (create_handler b)) = [d] ->
  ω n = Accept id1 -> ω' n' = Accept id2 -> id1 ≠ id2 ->
  exec ω' n' (final (exec ω n st (create_handler b))) (create_handler b)
  = {| result := Resolved (json 201 (VObj (spread {[ js "id" := VStr id2 ]} d)));
       final := <[ id2 := d ]> (<[ id1 := d ]> st);
       trace := [(CAdd d, None)] |}
  ∧ <[ id2 := d ]> (<[ id1 := d ]> st) !! id1 = Some d
  ∧ <[ id2 := d ]> (<[ id1 := d ]> st) !! id2 = Some d.
Proof.
  intros Hins Hω Hω' Hne.
  destruct (created_run ω n st b d id1 Hins Hω) as (Hv & (img & He & ->) & Hrun).
  rewrite Hrun. cbn [final].
  split; [by apply exec_create_accepted|].
  split; [|apply lookup_insert_eq].
  rewrite lookup_insert_ne by done. apply lookup_insert_eq.
Qed.

Lemma create_twice_stores_two_witness :
  size (final (exec (two_ids "d1" "d2") 1
                 (final (exec (two_ids "d1" "d2") 0 ∅ (create_handler lakeview)))
                 (create_handler lakeview)))
  = 2.
Proof.
  assert (Hins : inserted (exec (two_ids "d1" "d2") 0 ∅ (create_handler lakeview))
                 = [<[ js "image" := VStr (placeholder (js "Lakeview Cottage")) ]>
                      lakeview_fields])
    by (vm_compute; reflexivity).
  assert (Hne : js "d1" ≠ js "d2") by discriminate.
  rewrite (proj1 (create_twice_stores_two lakeview (two_ids "d1" "d2") 0 ∅ _
                    (js "d1") (two_ids "d1" "d2") 1 (js "d2")
                    Hins eq_refl eq_refl Hne)).
  vm_compute. reflexivity.
Defined.

(** ** The placeholder URL *)

Lemma placeholder_prefix_no_whitespace (u : N) :
  u ∈ placeholder_prefix -> is_whitespace u = false.
Proof.
  revert u. apply Forall_forall. unfold placeholder_prefix.
  cbn. repeat (constructor; [reflexivity|]). constructor.
Qed.

(** X11: the placeholder URL of a name holds no whitespace code unit at
    all, and is as long as the fixed prefix and the name together: each
    code unit of the name gives one of the URL. *)
Theorem placeholder_no_whitespace (name : jsstring) :
  (∀ u, u ∈ placeholder name -> is_whitespace u = false)
  ∧ length (placeholder name) = length placeholder_prefix + length name.
Proof.
  unfold placeholder, placeholder_url. split.
  - intros u Hu. apply elem_of_app in Hu as [Hu|Hu].
    + by apply placeholder_prefix_no_whitespace.
    + unfold replace_whitespace in Hu.
      apply list_elem_of_fmap in Hu as (x & -> & _).
      destruct (is_whitespace x) eqn:Hx; [reflexivity|exact Hx].
  - by rewrite length_app, replace_whitespace_length.
Qed.

(** X12: a name without whitespace goes into the placeholder URL as it
    is: nothing but whitespace is rewritten, so characters with a meaning
    in a URL are not escaped. *)
Theorem placeholder_keeps_other_characters (name : jsstring) :
  (∀ u, u ∈ name -> is_whitespace u = false) ->
  placeholder name = placeholder_prefix ++ name.
Proof.
  intros Hname. unfold placeholder, placeholder_url. f_equal.
  unfold replace_whitespace.
  induction name as [|u name IH]; [reflexivity|].
  cbn [fmap list_fmap]. rewrite (Hname u) by apply list_elem_of_here.
  f_equal. apply IH. intros v Hv. apply Hname. by apply list_elem_of_further.
Qed.

Lemma placeholder_keeps_other_characters_witness :
  placeholder (js "Q&A#1?")
  = js "https://placehold.co/600x400/cccccc/333?text=Q&A#1?".
Proof.
  rewrite (placeholder_keeps_other_characters (js "Q&A#1?")).
  - reflexivity.
  - apply Forall_forall. cbn. repeat (constructor; [reflexivity|]). constructor.
Defined.
